(** * rprml: the experiment orchestrator

    A shallow embedding of [rprml/core/experiment.py] (the [Experiment]
    class and the worker entry point [_job]) together with the part of
    [rprml/core/simulation.py] that the identifier builder inspects: the
    declared fields of the [Simulation] dataclass.

    Python values are modelled by [pyval], Python dictionaries by
    insertion-ordered association lists ([pydict]), exceptions by a sum
    type, and the multiprocessing pools by an explicit [world] that is
    threaded through [full_run]. *)

From Stdlib Require Import QArith Qcanon.
From stdpp Require Import base tactics option list numbers strings pretty gmap.

Local Open Scope string_scope.
Local Open Scope list_scope.
Local Open Scope Z_scope.

(** ** Exceptions and fallible computations *)

Inductive exn :=
| AttributeError (attr : string)
| KeyError (key : string)
| ValueError (msg : string)
| RuntimeError (msg : string).

Inductive result (A : Type) :=
| Ok (a : A)
| Raise (e : exn).

Arguments Ok {A} a.
Arguments Raise {A} e.

Global Instance exn_eq_dec : EqDecision exn.
Proof. solve_decision. Defined.

Global Instance result_eq_dec `{EqDecision A} : EqDecision (result A).
Proof. solve_decision. Defined.

Global Instance result_ret : MRet result := λ A a, Ok a.

Global Instance result_bind : MBind result := λ A B k r,
  match r with
  | Ok a => k a
  | Raise e => Raise e
  end.

Definition is_ok {A} (r : result A) : bool :=
  match r with Ok _ => true | Raise _ => false end.

(** [for x in xs: acc = body(acc, x)], stopping at the first exception. *)
Fixpoint rfold {A B} (body : B → A → result B) (acc : B) (xs : list A)
  : result B :=
  match xs with
  | [] => Ok acc
  | x :: xs' => acc' ← body acc x; rfold body acc' xs'
  end.

(** ** Python values

    A number is identified with its exact value: Python compares [int],
    [bool], [float] and [Fraction] objects by value ([1 == 1.0 == True]),
    so Leibniz equality on [Qc] is Python's [==] on them.  Everything that
    is not a [numbers.Number] is a string, [None], or an object of which
    only [str(obj)] is observed. *)

Inductive pyval :=
| PNum (x : Qc)
| PStr (s : string)
| PNone
| PObj (str_of : string).

Global Instance pyval_eq_dec : EqDecision pyval.
Proof. solve_decision. Defined.

Definition PInt (z : Z) : pyval := PNum (Q2Qc (inject_Z z)).

(** [isinstance(v, numbers.Number)] *)
Definition is_number (v : pyval) : bool :=
  match v with PNum _ => true | _ => false end.

(** [str(v)] for the values that are not numbers. *)
Definition str (v : pyval) : string :=
  match v with
  | PNum _ => ""  (* never taken: numbers are not converted *)
  | PStr s => s
  | PNone => "None"
  | PObj s => s
  end.

(** ** Python dictionaries: insertion-ordered, one binding per key *)

Section pydict.
Context {K V : Type} `{EqDecision K}.

Definition pydict := list (K * V).

(** [d.get(k)] *)
Fixpoint dict_get (k : K) (d : pydict) : option V :=
  match d with
  | [] => None
  | (k', v') :: d' => if decide (k = k') then Some v' else dict_get k d'
  end.

(** [d[k] = v]: an existing key keeps its position. *)
Fixpoint dict_set (k : K) (v : V) (d : pydict) : pydict :=
  match d with
  | [] => [(k, v)]
  | (k', v') :: d' =>
      if decide (k = k') then (k, v) :: d' else (k', v') :: dict_set k v d'
  end.

(** [del d[k]] (for a key that is present) *)
Fixpoint dict_del (k : K) (d : pydict) : pydict :=
  match d with
  | [] => []
  | (k', v') :: d' =>
      if decide (k = k') then d' else (k', v') :: dict_del k d'
  end.

(** [d.update(other)] *)
Definition dict_update (d other : pydict) : pydict :=
  foldl (λ acc kv, dict_set kv.1 kv.2 acc) d other.

(** [list(d.keys())] *)
Definition dict_keys (d : pydict) : list K := d.*1.

(** [k in d.keys()] *)
Definition dict_mem (k : K) (d : pydict) : bool :=
  bool_decide (k ∈ dict_keys d).

(** [len(d)] *)
Definition dict_len (d : pydict) : nat := length d.
End pydict.

Arguments pydict : clear implicits.

(** [d[k]], which raises [KeyError] for a missing key. *)
Definition dict_getitem {V} (k : string) (d : pydict string V) : result V :=
  match dict_get k d with
  | Some v => Ok v
  | None => Raise (KeyError k)
  end.

(** ** Classes and instances

    A class is seen through what [append_identifiers] inspects: whether
    the [@dataclass] decorator was applied to it, the annotations of its
    own body ([cls.__annotations__], name to type object) and its bases
    ([cls.__bases__]). *)

#[warnings="-register-all"]
Inductive pyclass :=
| PyClass (cls_name : string) (decorated : bool)
          (annotations : pydict string pyval) (bases : list pyclass).

(** [dataclasses.is_dataclass(cls)] tests for the attribute
    [__dataclass_fields__], which a subclass inherits. *)
Fixpoint is_dataclass (cls : pyclass) : bool :=
  match cls with
  | PyClass _ decorated _ bases => decorated || existsb is_dataclass bases
  end.

Record instance := {
  inst_class : pyclass;          (* [obj.__class__] *)
  inst_attrs : gmap string pyval (* the attributes [obj.__getattribute__] resolves *)
}.

Definition getattribute (obj : instance) (key : string) : result pyval :=
  match inst_attrs obj !! key with
  | Some v => Ok v
  | None => Raise (AttributeError key)
  end.

(** ** [Experiment.construct_simulation_identifier] *)

(** The nested helper [append_identifiers(cls)]; the dictionary
    [identifier] of the enclosing call is threaded through. *)
Fixpoint append_identifiers (cls : pyclass) (identifier : pydict string pyval)
  : pydict string pyval :=
  match cls with
  | PyClass _ _ annotations bases =>
      if is_dataclass cls then
        foldl (λ identifier base_cls, append_identifiers base_cls identifier)
              (dict_update identifier annotations) bases
      else identifier
  end.

(** The identifier is a [HashableDict]: a dictionary compared as a finite
    map, whatever the insertion order. *)
Definition HashableDict (d : pydict string pyval) : gmap string pyval :=
  list_to_map d.

(** One round of the loop [for key in identifier.keys()]. *)
Definition read_field (simulation : instance)
    (identifier : pydict string pyval) (key : string)
  : result (pydict string pyval) :=
  v ← getattribute simulation key;
  let identifier := dict_set key v identifier in
  current ← dict_getitem key identifier;
  if negb (is_number current) then
    current ← dict_getitem key identifier;
    Ok (dict_set key (PStr (str current)) identifier)
  else Ok identifier.

Definition construct_simulation_identifier (simulation : instance)
  : result (gmap string pyval) :=
  let identifier := append_identifiers (inst_class simulation) [] in
  identifier ← rfold (read_field simulation) identifier (dict_keys identifier);
  if dict_mem "_learning_rate" identifier then
    lr ← dict_getitem "_learning_rate" identifier;
    let identifier := dict_set "learning_rate" lr identifier in
    let identifier := dict_del "_learning_rate" identifier in
    Ok (HashableDict identifier)
  else Ok (HashableDict identifier).

(** ** The [Simulation] dataclass of [rprml/core/simulation.py] *)

(** The annotated names of the class body, in declaration order.
    [executor_class] and [__initialized] carry no annotation. *)
Definition Simulation_annotations : pydict string pyval :=
  [ ("seed", PObj "<class 'int'>");
    ("device", PObj "<class 'torch.device'>");
    ("model_factory", PObj "typing.Callable");
    ("data", PObj "typing.Union[str, typing.Callable]");
    ("n_train", PObj "<class 'int'>");
    ("n_valid", PObj "<class 'int'>");
    ("loss_function", PObj "typing.Callable");
    ("batch_size", PObj "<class 'int'>");
    ("_learning_rate", PObj "<class 'int'>");
    ("simulation_name", PObj "<class 'str'>");
    ("data_factory_kwargs", PObj "<class 'dict'>");
    ("model_factory_kwargs", PObj "<class 'dict'>") ].

Definition object_cls : pyclass := PyClass "object" false [] [].

Definition Simulation_cls : pyclass :=
  PyClass "Simulation" true Simulation_annotations [object_cls].

(** The configuration of a simulation: every constructor argument apart
    from [seed] and [device]. *)
Record configuration := {
  model_factory : pyval;
  data : pyval;
  n_train : pyval;
  n_valid : pyval;
  loss_function : pyval;
  batch_size : pyval;
  _learning_rate : pyval;
  simulation_name : pyval;
  data_factory_kwargs : pyval;
  model_factory_kwargs : pyval
}.

(** [__post_init__] replaces a [None] keyword dictionary by [{}]. *)
Definition default_kwargs (v : pyval) : pyval :=
  match v with PNone => PObj "{}" | _ => v end.

(** The declared fields of [Simulation(seed, device, ...)] once
    [__init__] and [__post_init__] have run. *)
Definition Simulation_new (seed device : pyval) (c : configuration) : instance :=
  {| inst_class := Simulation_cls;
     inst_attrs :=
       <["seed" := seed]> $ <["device" := device]> $
       <["model_factory" := model_factory c]> $ <["data" := data c]> $
       <["n_train" := n_train c]> $ <["n_valid" := n_valid c]> $
       <["loss_function" := loss_function c]> $
       <["batch_size" := batch_size c]> $
       <["_learning_rate" := _learning_rate c]> $
       <["simulation_name" := simulation_name c]> $
       <["data_factory_kwargs" := default_kwargs (data_factory_kwargs c)]> $
       <["model_factory_kwargs" := default_kwargs (model_factory_kwargs c)]> ∅ |}.

Definition example_configuration : configuration :=
  {| model_factory := PObj "<function make_model>";
     data := PStr "mnist";
     n_train := PInt 1000;
     n_valid := PInt 100;
     loss_function := PObj "CrossEntropyLoss()";
     batch_size := PInt 32;
     _learning_rate := PNum (Q2Qc (1 # 10));
     simulation_name := PStr "Simulation";
     data_factory_kwargs := PNone;
     model_factory_kwargs := PNone |}.


(** ** Devices *)

Record torch_device := { dev_type : string; dev_index : option Z }.

Global Instance torch_device_eq_dec : EqDecision torch_device.
Proof. solve_decision. Defined.

(** [torch.device('cpu')] *)
Definition cpu : torch_device := {| dev_type := "cpu"; dev_index := None |}.

(** ** The epoch policy: [zip(self.simulation_factories, cycle(epochs))] *)

(** [epochs_per_simulation : Union[int, List[int]]] *)
Inductive epochs_arg :=
| EpochsInt (n : Z)
| EpochsList (l : list Z).

(** [if isinstance(epochs_per_simulation, int): epochs_per_simulation = [...]] *)
Definition epochs_list (epochs_per_simulation : epochs_arg) : list Z :=
  match epochs_per_simulation with
  | EpochsInt n => [n]
  | EpochsList l => l
  end.

(** [zip(xs, cycle(ys))]: [cycle] first plays [ys], then replays the saved
    copy for ever; [pending] is what is left of the current round.  With
    an empty [ys] the cycle is exhausted at once and [zip] stops. *)
Fixpoint zip_cycle_from {A B} (xs : list A) (pending ys : list B)
  : list (A * B) :=
  match xs with
  | [] => []
  | x :: xs' =>
      match pending with
      | y :: pending' => (x, y) :: zip_cycle_from xs' pending' ys
      | [] =>
          match ys with
          | y :: pending' => (x, y) :: zip_cycle_from xs' pending' ys
          | [] => []
          end
      end
  end.

Definition zip_cycle {A B} (xs : list A) (ys : list B) : list (A * B) :=
  zip_cycle_from xs ys ys.

(** [range(n)] *)
Definition range (n : Z) : list Z := seqZ 0 n.

(** [enumerate(xs)] *)
Definition enumerate {A} (xs : list A) : list (nat * A) :=
  zip (seq 0 (length xs)) xs.

(** ** The completion order of a pool

    Workers finish in an order the program does not control.  The order is
    drawn from a list of choices: each choice selects which of the tasks
    still pending completes next, so every list of choices is a schedule
    and every order of completion is the outcome of one. *)
Fixpoint completion_order (pending : list nat) (fuel : nat)
    (choices : list nat) : list nat :=
  match fuel with
  | O => []
  | S fuel' =>
      let i := (hd 0%nat choices `mod` length pending)%nat in
      match pending !! i with
      | Some task =>
          task :: completion_order (delete i pending) fuel' (tail choices)
      | None => []
      end
  end.

Section orchestrator.
(** The execution record of a simulation is opaque. *)
Context {History : Type}.

Record executor := {
  print_frequency : Z;
  history : History
}.

Record simulation := {
  sim_obj : instance;       (* the declared fields, as an object *)
  sim_executor : executor   (* [simulation.executor] *)
}.

(** [simulation.run(epochs)]: the training loop, which mutates the
    simulation and may raise. *)
Variable run : simulation → Z → result simulation.

(** A [_SimulationFactoryBase] object is called as [factory(seed, device)]. *)
Definition simulation_factory := Z → torch_device → result simulation.

Definition job_args : Type := simulation_factory * Z * torch_device * Z.
Definition job_result : Type := History * Z * torch_device.

(** The seed a job is given and the seed a result carries. *)
Definition args_seed (args : job_args) : Z := args.1.1.2.
Definition result_seed (r : job_result) : Z := r.1.2.

Definition disable_printing (s : simulation) : simulation :=
  {| sim_obj := sim_obj s;
     sim_executor := {| print_frequency := -1;
                        history := history (sim_executor s) |} |}.

Definition _job (args : job_args) : result job_result :=
  let '(simulation_factory, seed, device, epochs) := args in
  simulation ← simulation_factory seed device;
  let simulation := disable_printing simulation in
  simulation ← run simulation epochs;
  Ok (history (sim_executor simulation), seed, device).

Definition _outputs_prefix : string := "./outputs/".

Record Experiment := {
  name : string;
  simulation_factories : list simulation_factory
}.

Definition handle_simulation_output (self : Experiment)
    (simulation_history : History) : History :=
  simulation_history.

(** *** [Experiment.prototype_run] *)

Definition prototype_run (self : Experiment) (seed : Z)
    (device : torch_device) (epochs_per_simulation : epochs_arg)
  : result (pydict (gmap string pyval) History) :=
  let epochs_per_simulation := epochs_list epochs_per_simulation in
  rfold (λ results '(simulation_factory, epochs),
           simulation ← simulation_factory seed device;
           simulation ← run simulation epochs;
           simulation_identifier ←
             construct_simulation_identifier (sim_obj simulation);
           let result :=
             handle_simulation_output self
               (history (sim_executor simulation)) in
           Ok (dict_set simulation_identifier result results))
        [] (zip_cycle (simulation_factories self) epochs_per_simulation).

(** *** Worker pools and the result store *)

Inductive pool_state := RUN | CLOSE.

Record pool := {
  pool_processes : Z;
  pool_status : pool_state;
  pool_joined : bool;
  pool_tasks : list (list job_args);  (* the batches submitted so far *)
  pool_retrieved : bool  (* ghost: a [get] on this pool has returned *)
}.

Definition bundle : Type := gmap string pyval * list job_result.

Record world := {
  w_pools : list pool;               (* every pool created, by reference *)
  w_saved : list (bundle * string);  (* the [save_to_disk] calls, in order *)
  w_sched : list nat                 (* the scheduling choices still to come *)
}.

Definition set_pools (f : list pool → list pool) (w : world) : world :=
  {| w_pools := f (w_pools w); w_saved := w_saved w; w_sched := w_sched w |}.

(** Computations that act on the world and may raise; the world a raising
    computation leaves behind stays observable. *)
Definition M (A : Type) : Type := world → world * result A.

Global Instance M_ret : MRet M := λ A a w, (w, Ok a).

Global Instance M_bind : MBind M := λ A B k m w,
  match m w with
  | (w', Ok a) => k a w'
  | (w', Raise e) => (w', Raise e)
  end.

Definition lift {A} (r : result A) : M A := λ w, (w, r).

(** [for x in xs: acc = body(acc, x)] *)
Fixpoint mfold {A B} (body : B → A → M B) (acc : B) (xs : list A) : M B :=
  match xs with
  | [] => mret acc
  | x :: xs' => acc' ← body acc x; mfold body acc' xs'
  end.

(** [ys = []; for x in xs: ys.append(body(x))] *)
Fixpoint mfor {A B} (body : A → M B) (xs : list A) : M (list B) :=
  match xs with
  | [] => mret []
  | x :: xs' => y ← body x; ys ← mfor body xs'; mret (y :: ys)
  end.

(** [context.Pool(processes=n)]; a pool is referred to by its position
    in [w_pools]. *)
Definition Pool (processes : Z) : M nat := λ w,
  if processes <? 1 then
    (w, Raise (ValueError "Number of processes must be at least 1"))
  else
    (set_pools (λ ps, ps ++ [{| pool_processes := processes;
                                pool_status := RUN;
                                pool_joined := false;
                                pool_tasks := [];
                                pool_retrieved := false |}]) w,
     Ok (length (w_pools w))).

Definition update_pool (f : pool → pool) (p : nat) : M () := λ w,
  (set_pools (alter f p) w, Ok ()).

(** The [MapResult] that [starmap_async] hands back. *)
Record map_result := {
  mr_pool : nat;
  mr_args : list job_args
}.

(** [pool.starmap_async(_job, args)] *)
Definition starmap_async (p : nat) (args : list job_args) : M map_result :=
  λ w,
  match pool_status <$> w_pools w !! p with
  | Some RUN =>
      (set_pools (alter (λ q, {| pool_processes := pool_processes q;
                                 pool_status := pool_status q;
                                 pool_joined := pool_joined q;
                                 pool_tasks := pool_tasks q ++ [args];
                                 pool_retrieved := pool_retrieved q |}) p) w,
       Ok {| mr_pool := p; mr_args := args |})
  | _ => (w, Raise (ValueError "Pool not running"))
  end.

(** The state of a [MapResult]: [_success] and [_value], which holds one
    slot per task until a task fails and the exception afterwards. *)
Inductive map_value :=
| Slots (slots : list (option job_result))
| Failure (e : exn).

(** [MapResult._set(i, outcome)], called as task [i] completes: a result
    is stored in slot [i]; only the first exception is stored. *)
Definition _set (value : map_value) (i : nat) (outcome : result job_result)
  : map_value :=
  match value, outcome with
  | Slots slots, Ok r => Slots (<[i := Some r]> slots)
  | Slots _, Raise e => Failure e
  | Failure e, _ => Failure e
  end.

(** The value of a [MapResult] once its tasks have completed in [order]. *)
Definition completed (args : list job_args) (order : list nat) : map_value :=
  foldl (λ value i,
           match args !! i with
           | Some a => _set value i (_job a)
           | None => value
           end)
        (Slots (replicate (length args) None)) order.

(** [result.get()]: blocks until every task of the batch has completed,
    then returns the slots or raises the stored exception. *)
Definition get (r : map_result) : M (list job_result) := λ w,
  let n := length (mr_args r) in
  let order := completion_order (seq 0 n) n (w_sched w) in
  let w' := {| w_pools := w_pools w; w_saved := w_saved w;
               w_sched := drop n (w_sched w) |} in
  match completed (mr_args r) order with
  | Slots slots =>
      match mapM id slots with
      | Some outputs =>
          (set_pools (alter (λ q, {| pool_processes := pool_processes q;
                                     pool_status := pool_status q;
                                     pool_joined := pool_joined q;
                                     pool_tasks := pool_tasks q;
                                     pool_retrieved := true |})
                            (mr_pool r)) w',
           Ok outputs)
      | None => (w', Raise (RuntimeError "a task never completed"))
      end
  | Failure e => (w', Raise e)
  end.

(** [pool.close()] *)
Definition close (p : nat) : M () :=
  update_pool (λ q, {| pool_processes := pool_processes q;
                       pool_status := CLOSE;
                       pool_joined := pool_joined q;
                       pool_tasks := pool_tasks q;
                       pool_retrieved := pool_retrieved q |}) p.

(** [pool.join()], which refuses a pool that is still running. *)
Definition join (p : nat) : M () := λ w,
  match pool_status <$> w_pools w !! p with
  | Some CLOSE =>
      update_pool (λ q, {| pool_processes := pool_processes q;
                           pool_status := pool_status q;
                           pool_joined := true;
                           pool_tasks := pool_tasks q;
                           pool_retrieved := pool_retrieved q |}) p w
  | _ => (w, Raise (ValueError "Pool is still running"))
  end.

(** The result store refuses some writes; which ones is not the
    orchestrator's business. *)
Variable store_fault : bundle → string → option exn.

(** Modelled from the spec: [save_to_disk] of [rprml/utils/io.py] is the
    ResultStore's [save(payload, path)]: a durable write of the payload at
    the path, whose failures propagate to the caller. *)
Definition save_to_disk (payload : bundle) (file_path : string) : M () :=
  λ w,
  match store_fault payload file_path with
  | Some e => (w, Raise e)
  | None =>
      ({| w_pools := w_pools w;
          w_saved := w_saved w ++ [(payload, file_path)];
          w_sched := w_sched w |}, Ok ())
  end.

(** *** [Experiment.full_run] *)

(** The jobs of the device at position [pool_id]. *)
Definition device_args (simulation_factory : simulation_factory)
    (n_runs_per_device : Z) (pool_id : nat) (device : torch_device)
    (epochs : Z) : list job_args :=
  (λ i, (simulation_factory, Z.of_nat pool_id * n_runs_per_device + i,
         device, epochs)) <$> range n_runs_per_device.

(** One round of the loop over the configurations. *)
Definition run_configuration (self : Experiment)
    (n_runs_per_device n_processes_per_device : Z)
    (devices_list : list torch_device) (experiment_id : Z)
    (configuration : simulation_factory * Z) : M Z :=
  let '(simulation_factory, epochs) := configuration in
  pools ← mfor (λ device, Pool n_processes_per_device) devices_list;
  results ← mfor (λ '(pool_id, (pool, device)),
                    starmap_async pool
                      (device_args simulation_factory n_runs_per_device
                                   pool_id device epochs))
                 (enumerate (zip pools devices_list));
  all_outputs ← mfold (λ all_outputs '(pool, result),
                         outputs ← get result;
                         close pool;;
                         join pool;;
                         mret (all_outputs ++ outputs))
                      [] (zip pools results);
  let processed_outputs :=
    (λ '(simulation_history, used_seed, used_device),
       (handle_simulation_output self simulation_history,
        used_seed, used_device)) <$> all_outputs in
  simulation ← lift (simulation_factory 0 cpu);
  simulation_identifier ←
    lift (construct_simulation_identifier (sim_obj simulation));
  let file_path :=
    _outputs_prefix +:+ name self +:+ "/experiment_" +:+ pretty experiment_id in
  save_to_disk (simulation_identifier, processed_outputs) file_path;;
  mret (experiment_id + 1).

Definition full_run (self : Experiment)
    (n_runs_per_device n_processes_per_device : Z)
    (devices_list : list torch_device) (epochs_per_simulation : epochs_arg)
  : M () :=
  let epochs_per_simulation := epochs_list epochs_per_simulation in
  mfold (run_configuration self n_runs_per_device n_processes_per_device
                           devices_list)
        0 (zip_cycle (simulation_factories self) epochs_per_simulation);;
  mret ().

End orchestrator.

(** ** What a configuration leaves behind

    The pools and the outputs of one configuration, described device by
    device; [pool_id] is the position of the first of the devices. *)

Section expected.
Context {History : Type}.
Variable run : @simulation History → Z → result (@simulation History).
Variable store_fault : @bundle History → string → option exn.
Variable self : @Experiment History.
Variables n_runs_per_device n_processes_per_device : Z.

(** A pool as [context.Pool] creates it. *)
Definition idle_pool : @pool History :=
  {| pool_processes := n_processes_per_device; pool_status := RUN;
     pool_joined := false; pool_tasks := []; pool_retrieved := false |}.

(** A pool that holds one batch of jobs. *)
Definition busy_pool (args : list job_args) : @pool History :=
  {| pool_processes := n_processes_per_device; pool_status := RUN;
     pool_joined := false; pool_tasks := [args]; pool_retrieved := false |}.

(** A pool whose batch was collected and that was closed and joined. *)
Definition finished_pool (args : list job_args) : @pool History :=
  {| pool_processes := n_processes_per_device; pool_status := CLOSE;
     pool_joined := true; pool_tasks := [args]; pool_retrieved := true |}.

Definition job_output (args : job_args) : option job_result :=
  match _job run args with
  | Ok r => Some r
  | Raise _ => None
  end.

(** The outputs of a batch in the order of submission, if no job raises. *)
Definition batch_outputs (args : list job_args) : option (list job_result) :=
  mapM job_output args.

Section for_one_configuration.
Variable simulation_factory : @simulation_factory History.
Variable epochs : Z.

Fixpoint submitted_from (pool_id : nat) (devices : list torch_device)
  : list pool :=
  match devices with
  | [] => []
  | device :: devices' =>
      busy_pool (device_args simulation_factory n_runs_per_device
                             pool_id device epochs)
      :: submitted_from (S pool_id) devices'
  end.

Fixpoint handles_from (pool_id first_pool : nat)
    (devices : list torch_device) : list map_result :=
  match devices with
  | [] => []
  | device :: devices' =>
      {| mr_pool := first_pool;
         mr_args := device_args simulation_factory n_runs_per_device
                                pool_id device epochs |}
      :: handles_from (S pool_id) (S first_pool) devices'
  end.

(** The pools once the collection loop has ended: those before the
    first device with a failing job are finished, the others are as
    they were. *)
Fixpoint settled_from (pool_id : nat) (devices : list torch_device)
  : list pool :=
  match devices with
  | [] => []
  | device :: devices' =>
      let args := device_args simulation_factory n_runs_per_device
                              pool_id device epochs in
      match batch_outputs args with
      | Some _ => finished_pool args :: settled_from (S pool_id) devices'
      | None => submitted_from pool_id devices
      end
  end.

(** [all_outputs], if no job raises. *)
Fixpoint gathered_from (pool_id : nat) (devices : list torch_device)
  : option (list job_result) :=
  match devices with
  | [] => Some []
  | device :: devices' =>
      outputs ← batch_outputs
                  (device_args simulation_factory n_runs_per_device
                               pool_id device epochs);
      rest ← gathered_from (S pool_id) devices';
      Some (outputs ++ rest)
  end.

(** The batch of the first device with a failing job. *)
Fixpoint culprits_from (pool_id : nat) (devices : list torch_device)
  : list job_args :=
  match devices with
  | [] => []
  | device :: devices' =>
      let args := device_args simulation_factory n_runs_per_device
                              pool_id device epochs in
      match batch_outputs args with
      | Some _ => culprits_from (S pool_id) devices'
      | None => args
      end
  end.
End for_one_configuration.

Variable devices_list : list torch_device.

(** No pool can be created for fewer than one process. *)
Definition pools_refused : bool :=
  (n_processes_per_device <? 1) && negb (bool_decide (devices_list = [])).

Definition configuration_pools (configuration : simulation_factory * Z)
  : list pool :=
  if pools_refused then []
  else settled_from configuration.1 configuration.2 0 devices_list.

(** The bundle a configuration persists and its path, if it gets there. *)
Definition configuration_bundle (experiment_id : Z)
    (configuration : simulation_factory * Z) : option (bundle * string) :=
  if pools_refused then None
  else
    all_outputs ←
      gathered_from configuration.1 configuration.2 0 devices_list;
    match (simulation ← configuration.1 0 cpu;
           construct_simulation_identifier (sim_obj simulation)) with
    | Ok simulation_identifier =>
        let processed_outputs :=
          (λ '(simulation_history, used_seed, used_device),
             (handle_simulation_output self simulation_history,
              used_seed, used_device)) <$> all_outputs in
        let file_path :=
          _outputs_prefix +:+ name self +:+ "/experiment_"
                          +:+ pretty experiment_id in
        match store_fault (simulation_identifier, processed_outputs)
                          file_path with
        | None => Some ((simulation_identifier, processed_outputs), file_path)
        | Some _ => None
        end
    | Raise _ => None
    end.

(** An exception that ends a configuration whose pools were created but
    whose jobs did not all succeed comes from the batch of the first
    device with a failing job. *)
Definition raised_by (configuration : simulation_factory * Z) (e : exn)
  : Prop :=
  pools_refused = false →
  gathered_from configuration.1 configuration.2 0 devices_list = None →
  ∃ args,
    args ∈ culprits_from configuration.1 configuration.2 0 devices_list ∧
    _job run args = Raise e.

Fixpoint expected_pools (experiment_id : Z)
    (sweep : list (simulation_factory * Z)) : list pool :=
  match sweep with
  | [] => []
  | configuration :: sweep' =>
      configuration_pools configuration ++
      match configuration_bundle experiment_id configuration with
      | Some _ => expected_pools (experiment_id + 1) sweep'
      | None => []
      end
  end.

Fixpoint expected_saved (experiment_id : Z)
    (sweep : list (simulation_factory * Z)) : list (bundle * string) :=
  match sweep with
  | [] => []
  | configuration :: sweep' =>
      match configuration_bundle experiment_id configuration with
      | Some saved => saved :: expected_saved (experiment_id + 1) sweep'
      | None => []
      end
  end.

Fixpoint expected_result (experiment_id : Z)
    (sweep : list (simulation_factory * Z)) (r : result Z) : Prop :=
  match sweep with
  | [] => r = Ok experiment_id
  | configuration :: sweep' =>
      match configuration_bundle experiment_id configuration with
      | Some _ => expected_result (experiment_id + 1) sweep' r
      | None => ∃ e, r = Raise e ∧ raised_by configuration e
      end
  end.
End expected.

(** ** A small experiment to run the definitions on *)

(** [str(device)] *)
Definition device_str (d : torch_device) : string :=
  dev_type d +:+ match dev_index d with
                 | Some i => ":" +:+ pretty i
                 | None => ""
                 end.

Definition cuda (i : Z) : torch_device :=
  {| dev_type := "cuda"; dev_index := Some i |}.

(** A factory for the example configuration with the given learning rate;
    the history of a simulation lists the epoch counts it was run for. *)
Definition toy_factory (learning_rate : Z) : @simulation_factory (list Z) :=
  λ seed device,
    Ok {| sim_obj :=
            Simulation_new (PInt seed) (PObj (device_str device))
              {| model_factory := model_factory example_configuration;
                 data := data example_configuration;
                 n_train := n_train example_configuration;
                 n_valid := n_valid example_configuration;
                 loss_function := loss_function example_configuration;
                 batch_size := batch_size example_configuration;
                 _learning_rate := PInt learning_rate;
                 simulation_name := simulation_name example_configuration;
                 data_factory_kwargs := PNone;
                 model_factory_kwargs := PNone |};
          sim_executor := {| print_frequency := 1; history := [] |} |}.

(** A factory whose simulations cannot be built for odd seeds. *)
Definition flaky_factory : @simulation_factory (list Z) :=
  λ seed device,
    if Z.odd seed then Raise (RuntimeError ("seed " +:+ pretty seed))
    else toy_factory 7 seed device.

Definition toy_run (s : @simulation (list Z)) (epochs : Z)
  : result (@simulation (list Z)) :=
  Ok {| sim_obj := sim_obj s;
        sim_executor :=
          {| print_frequency := print_frequency (sim_executor s);
             history := history (sim_executor s) ++ [epochs] |} |}.

Definition no_fault : @bundle (list Z) → string → option exn := λ _ _, None.

Definition empty_world : @world (list Z) :=
  {| w_pools := []; w_saved := []; w_sched := [] |}.

Definition toy_experiment : @Experiment (list Z) :=
  {| name := "toy"; simulation_factories := [toy_factory 1; toy_factory 2; toy_factory 3] |}.


Definition twin_experiment : @Experiment (list Z) :=
  {| name := "twins"; simulation_factories := [toy_factory 1; toy_factory 1] |}.

Definition flaky_experiment : @Experiment (list Z) :=
  {| name := "flaky";
     simulation_factories := [toy_factory 1; flaky_factory; toy_factory 3] |}.

(** A world in which the workers complete out of order. *)
Definition shuffled_world : @world (list Z) :=
  {| w_pools := []; w_saved := []; w_sched := [2; 0; 5; 1; 1; 1]%nat |}.

Definition toy_outcome : @world (list Z) * result () :=
  full_run toy_run no_fault toy_experiment 3 2 [cpu; cuda 0]
           (EpochsList [5; 2]) shuffled_world.

Definition flaky_outcome : @world (list Z) * result () :=
  full_run toy_run no_fault flaky_experiment 3 2 [cpu; cuda 0]
           (EpochsList [5; 2]) shuffled_world.

(** The histories of the persisted bundles, bundle by bundle. *)
Definition saved_histories (w : @world (list Z)) : list (list (list Z)) :=
  (λ entry : @bundle (list Z) * string,
     (λ r : @job_result (list Z), r.1.1) <$> (entry.1.2 : list job_result))
  <$> w_saved w.

(** * Properties *)

(** ** Dictionaries *)

Section pydict_facts.
Context {K V : Type} `{EqDecision K}.
Implicit Types (d : pydict K V) (k : K) (v : V).

Lemma dict_get_set_eq k v d : dict_get k (dict_set k v d) = Some v.
Proof.
  induction d as [|[k' v'] d IH]; simpl.
  - by rewrite decide_True.
  - destruct (decide (k = k')) as [->|Hne]; simpl.
    + by rewrite decide_True.
    + by rewrite decide_False.
Qed.

Lemma dict_get_set_ne k k' v d :
  k ≠ k' → dict_get k' (dict_set k v d) = dict_get k' d.
Proof.
  intros Hne. induction d as [|[k0 v0] d IH]; simpl.
  - by rewrite decide_False.
  - destruct (decide (k = k0)) as [->|Hk]; simpl.
    + by rewrite !decide_False.
    + by rewrite IH.
Qed.

Lemma dict_get_None k d : dict_get k d = None ↔ k ∉ dict_keys d.
Proof.
  unfold dict_keys. induction d as [|[k' v'] d IH]; simpl.
  - split; [intros _; apply not_elem_of_nil | done].
  - rewrite not_elem_of_cons. destruct (decide (k = k')) as [->|Hne].
    + split; [done | intros [? _]; done].
    + rewrite IH. tauto.
Qed.

Lemma dict_get_is_Some k d : is_Some (dict_get k d) ↔ k ∈ dict_keys d.
Proof.
  rewrite <- not_eq_None_Some, dict_get_None.
  destruct (decide (k ∈ dict_keys d)); tauto.
Qed.

Lemma dict_keys_set_mem k v d :
  k ∈ dict_keys d → dict_keys (dict_set k v d) = dict_keys d.
Proof.
  unfold dict_keys. induction d as [|[k' v'] d IH]; simpl.
  - by intros ?%elem_of_nil.
  - intros Hin. destruct (decide (k = k')) as [->|Hne]; simpl; [done|].
    apply elem_of_cons in Hin as [?|Hin]; [done|]. f_equal. by apply IH.
Qed.

Lemma dict_keys_set_new k v d :
  k ∉ dict_keys d → dict_keys (dict_set k v d) = dict_keys d ++ [k].
Proof.
  unfold dict_keys. induction d as [|[k' v'] d IH]; simpl; [done|].
  intros [Hne Hnin]%not_elem_of_cons.
  rewrite decide_False by done. simpl. f_equal. by apply IH.
Qed.

Lemma dict_keys_set k v d :
  dict_keys (dict_set k v d) =
  if decide (k ∈ dict_keys d) then dict_keys d else dict_keys d ++ [k].
Proof.
  case_decide; [by apply dict_keys_set_mem | by apply dict_keys_set_new].
Qed.

Lemma dict_set_NoDup k v d :
  NoDup (dict_keys d) → NoDup (dict_keys (dict_set k v d)).
Proof.
  intros Hnd. rewrite dict_keys_set. case_decide; [done|].
  apply NoDup_app. split_and!; [done| |apply NoDup_singleton].
  intros x Hx ->%list_elem_of_singleton. done.
Qed.

Lemma dict_update_NoDup d other :
  NoDup (dict_keys d) → NoDup (dict_keys (dict_update d other)).
Proof.
  unfold dict_update. revert d.
  induction other as [|[k v] other IH]; intros d Hnd; simpl; [done|].
  by apply IH, dict_set_NoDup.
Qed.

Lemma dict_get_del_eq k d :
  NoDup (dict_keys d) → dict_get k (dict_del k d) = None.
Proof.
  unfold dict_keys. induction d as [|[k' v'] d IH]; simpl; [done|].
  intros [Hnin Hnd]%NoDup_cons.
  destruct (decide (k = k')) as [->|Hne]; simpl.
  - by apply dict_get_None.
  - rewrite decide_False by done. by apply IH.
Qed.

Lemma dict_get_del_ne k k' d :
  k ≠ k' → dict_get k' (dict_del k d) = dict_get k' d.
Proof.
  intros Hne. induction d as [|[k0 v0] d IH]; simpl; [done|].
  destruct (decide (k = k0)) as [->|Hk]; simpl.
  - by rewrite decide_False.
  - by rewrite IH.
Qed.

Lemma dict_len_set k v d :
  dict_len (dict_set k v d) =
  if decide (k ∈ dict_keys d) then dict_len d else S (dict_len d).
Proof.
  assert (∀ d', dict_len d' = length (dict_keys d')) as Hlen
    by (intros d'; unfold dict_len, dict_keys; by rewrite length_fmap).
  rewrite !Hlen, dict_keys_set.
  case_decide; [done|]. rewrite length_app. simpl. lia.
Qed.
End pydict_facts.

Lemma HashableDict_lookup (d : pydict string pyval) (k : string) :
  HashableDict d !! k = dict_get k d.
Proof.
  unfold HashableDict. induction d as [|[k' v'] d IH]; simpl; [done|].
  rewrite lookup_insert. destruct (decide (k = k')) as [->|Hne].
  - by rewrite decide_True.
  - by rewrite decide_False.
Qed.

(** ** The identifier builder *)

Lemma pyclass_bases_ind (P : pyclass → Prop) :
  (∀ cls_name decorated annotations bases,
     Forall P bases → P (PyClass cls_name decorated annotations bases)) →
  ∀ cls, P cls.
Proof.
  intros step. fix IH 1. intros [cls_name decorated annotations bases].
  apply step. induction bases as [|base bases IHbases]; constructor.
  - apply IH.
  - apply IHbases.
Qed.

Lemma append_identifiers_NoDup cls identifier :
  NoDup (dict_keys identifier) →
  NoDup (dict_keys (append_identifiers cls identifier)).
Proof.
  revert identifier.
  induction cls as [cls_name decorated annotations bases IH]
    using pyclass_bases_ind.
  intros identifier Hnd. simpl.
  destruct (decorated || existsb is_dataclass bases); [|done].
  assert (NoDup (dict_keys (dict_update identifier annotations))) as Hupd
    by by apply dict_update_NoDup.
  revert Hupd. generalize (dict_update identifier annotations).
  induction IH as [|base bases Hbase _ IHbases]; intros acc Hacc; simpl.
  - done.
  - by apply IHbases, Hbase.
Qed.

(** What one round of the loop leaves under the key it reads. *)
Definition stored_value (v : pyval) : pyval :=
  if is_number v then v else PStr (str v).

Lemma read_field_Ok simulation identifier key v :
  inst_attrs simulation !! key = Some v →
  ∃ identifier',
    read_field simulation identifier key = Ok identifier' ∧
    dict_get key identifier' = Some (stored_value v) ∧
    (∀ key', key ≠ key' →
       dict_get key' identifier' = dict_get key' identifier) ∧
    (key ∈ dict_keys identifier →
       dict_keys identifier' = dict_keys identifier).
Proof.
  intros Hv. unfold read_field, getattribute, dict_getitem, stored_value.
  rewrite Hv. simpl. rewrite dict_get_set_eq. simpl.
  destruct (is_number v); simpl.
  - eexists. split_and!; [done|apply dict_get_set_eq| |].
    + intros key' Hne. by apply dict_get_set_ne.
    + apply dict_keys_set_mem.
  - eexists. split_and!; [done|apply dict_get_set_eq| |].
    + intros key' Hne. by rewrite !dict_get_set_ne.
    + intros Hin. rewrite !dict_keys_set_mem; [done..|].
      by rewrite dict_keys_set_mem.
Qed.

Lemma read_field_Raise simulation identifier key :
  inst_attrs simulation !! key = None →
  read_field simulation identifier key = Raise (AttributeError key).
Proof. intros Hv. unfold read_field, getattribute. by rewrite Hv. Qed.

Lemma read_fields_Ok simulation keys identifier :
  (∀ key, key ∈ keys → key ∈ dict_keys identifier) →
  (∀ key, key ∈ keys → is_Some (inst_attrs simulation !! key)) →
  ∃ identifier',
    rfold (read_field simulation) identifier keys = Ok identifier' ∧
    dict_keys identifier' = dict_keys identifier ∧
    ∀ key, dict_get key identifier' =
           if decide (key ∈ keys)
           then stored_value <$> inst_attrs simulation !! key
           else dict_get key identifier.
Proof.
  revert identifier.
  induction keys as [|key keys IH]; intros identifier Hkeys Hattrs.
  - exists identifier. split_and!; [done..|].
    intros key. rewrite decide_False; [done | apply not_elem_of_nil].
  - cbn [rfold]. destruct (Hattrs key) as [v Hv]; [left|].
    destruct (read_field_Ok simulation identifier key v Hv)
      as (identifier1 & -> & Hget & Hother & Hsame).
    specialize (Hsame (Hkeys key ltac:(left))). simpl.
    destruct (IH identifier1) as (identifier2 & -> & Hkeys2 & Hget2).
    + intros key' Hin. rewrite Hsame. apply Hkeys. by right.
    + intros key' Hin. apply Hattrs. by right.
    + exists identifier2. split_and!; [done|congruence|].
      intros key'. rewrite Hget2.
      destruct (decide (key' ∈ keys)) as [Hin|Hnin].
      * rewrite decide_True; [done | by right].
      * destruct (decide (key' = key)) as [->|Hne].
        -- rewrite decide_True by left. by rewrite Hget, Hv.
        -- rewrite decide_False; [by apply Hother|].
           by intros [?|?]%elem_of_cons.
Qed.

Lemma read_fields_ext simulation1 simulation2 keys identifier :
  (∀ key, key ∈ keys →
     inst_attrs simulation1 !! key = inst_attrs simulation2 !! key) →
  rfold (read_field simulation1) identifier keys =
  rfold (read_field simulation2) identifier keys.
Proof.
  revert identifier. induction keys as [|key keys IH]; intros identifier Hagree;
    simpl; [done|].
  assert (read_field simulation1 identifier key =
          read_field simulation2 identifier key) as ->.
  { unfold read_field, getattribute. rewrite (Hagree key); [done | left]. }
  destruct (read_field simulation2 identifier key); simpl; [|done].
  apply IH. intros key' Hin. apply Hagree. by right.
Qed.

(** The declared field names [append_identifiers] discovers. *)
Definition declared_fields (cls : pyclass) : list string :=
  dict_keys (append_identifiers cls []).

Lemma construct_simulation_identifier_Ok simulation :
  (∀ key, key ∈ declared_fields (inst_class simulation) →
     is_Some (inst_attrs simulation !! key)) →
  ∃ identifier,
    construct_simulation_identifier simulation = Ok identifier ∧
    ∀ key,
      identifier !! key =
      if decide (key = "_learning_rate") then None
      else if decide (key = "learning_rate"
                      ∧ "_learning_rate" ∈ declared_fields (inst_class simulation))
      then stored_value <$> inst_attrs simulation !! "_learning_rate"
      else if decide (key ∈ declared_fields (inst_class simulation))
      then stored_value <$> inst_attrs simulation !! key
      else None.
Proof.
  intros Hattrs. unfold construct_simulation_identifier, declared_fields in *.
  set (fields := append_identifiers (inst_class simulation) []) in *.
  assert (NoDup (dict_keys fields)) as Hnd
    by (apply append_identifiers_NoDup, NoDup_nil_2).
  destruct (read_fields_Ok simulation (dict_keys fields) fields)
    as (identifier & -> & Hkeys & Hget); [done..|].
  simpl. unfold dict_mem. rewrite Hkeys.
  case_bool_decide as Hlr.
  - unfold dict_getitem. rewrite Hget, decide_True by done.
    destruct (Hattrs "_learning_rate" Hlr) as [lr Hlrv]. rewrite Hlrv. simpl.
    eexists. split; [done|]. intros key. rewrite HashableDict_lookup.
    destruct (decide (key = "_learning_rate")) as [->|Hne].
    { apply dict_get_del_eq, dict_set_NoDup. by rewrite Hkeys. }
    rewrite dict_get_del_ne by done.
    destruct (decide (key = "learning_rate")) as [->|Hne'].
    + rewrite decide_True by done. apply dict_get_set_eq.
    + rewrite decide_False by (intros [? _]; done).
      rewrite dict_get_set_ne by done. rewrite Hget.
      case_decide as Hin; [done|]. by apply dict_get_None.
  - eexists. split; [done|]. intros key. rewrite HashableDict_lookup, Hget.
    destruct (decide (key = "_learning_rate")) as [->|Hne].
    { rewrite decide_False by done. by apply dict_get_None. }
    rewrite (decide_False (P := _ ∧ _)) by (intros [_ ?]; done).
    case_decide as Hin; [done|]. by apply dict_get_None.
Qed.

(** C8: when every declared field can be read off the instance,
    [construct_simulation_identifier] returns an identifier in which a
    declared field whose value is a number is bound to that value, a
    declared field with any other value is bound to the string form of the
    value, and the private name ['_learning_rate'] is absent, its value
    being bound, normalized in the same way, to ['learning_rate'];
    no other key is bound. *)
Theorem identifier_values_normalized (simulation : instance) :
  (∀ key, key ∈ declared_fields (inst_class simulation) →
     is_Some (inst_attrs simulation !! key)) →
  ∃ identifier,
    construct_simulation_identifier simulation = Ok identifier ∧
    (∀ key v,
       key ∈ declared_fields (inst_class simulation) →
       inst_attrs simulation !! key = Some v →
       let public :=
         if decide (key = "_learning_rate") then "learning_rate" else key in
       (key = "learning_rate" →
        "_learning_rate" ∉ declared_fields (inst_class simulation)) →
       (is_number v = true → identifier !! public = Some v) ∧
       (is_number v = false → identifier !! public = Some (PStr (str v)))) ∧
    identifier !! "_learning_rate" = None ∧
    (∀ key, is_Some (identifier !! key) →
       key ∈ declared_fields (inst_class simulation) ∨
       key = "learning_rate" ∧
       "_learning_rate" ∈ declared_fields (inst_class simulation)).
Proof.
  intros Hattrs.
  destruct (construct_simulation_identifier_Ok simulation Hattrs)
    as (identifier & Hrun & Hlookup).
  exists identifier. split_and!; [done| | |].
  - intros key v Hin Hv public Hpublic.
    assert (identifier !! public = Some (stored_value v)) as ->.
    { subst public. rewrite Hlookup.
      destruct (decide (key = "_learning_rate")) as [->|Hne].
      - rewrite decide_False by done. rewrite decide_True by done.
        by rewrite Hv.
      - rewrite decide_False by done.
        rewrite decide_False by (intros [-> ?]; by apply Hpublic).
        rewrite decide_True by done. by rewrite Hv. }
    unfold stored_value. split; intros ->; done.
  - by rewrite Hlookup, decide_True.
  - intros key [v Hv]. rewrite Hlookup in Hv.
    destruct (decide (key = "_learning_rate")); [done|].
    destruct (decide (key = "learning_rate" ∧ _)); [by right|].
    destruct (decide (key ∈ _)); [by left | done].
Qed.

Lemma identifier_values_normalized_witness :
  ∃ identifier,
    construct_simulation_identifier
      (Simulation_new (PInt 0) PNone example_configuration) = Ok identifier ∧
    identifier !! "_learning_rate" = None.
Proof.
  destruct (identifier_values_normalized
              (Simulation_new (PInt 0) PNone example_configuration))
    as (identifier & Hrun & _ & Hprivate & _).
  - apply Forall_forall. vm_compute.
    repeat (constructor; [by eexists|]). constructor.
  - exists identifier. by split.
Defined.

(** C1 (as the code has it): two instances of one class whose declared
    fields all carry the same values get equal identifiers, whatever their
    other attributes; [seed] and [device] are declared fields of
    [Simulation], and the identifier binds them: the seed as the number it
    is, the device by its string form. *)
Theorem identifier_determined_by_declared_fields
    (simulation1 simulation2 : instance) :
  inst_class simulation1 = inst_class simulation2 →
  (∀ key, key ∈ declared_fields (inst_class simulation1) →
     inst_attrs simulation1 !! key = inst_attrs simulation2 !! key) →
  construct_simulation_identifier simulation1 =
  construct_simulation_identifier simulation2
  ∧ ∀ seed device c,
      ∃ identifier,
        construct_simulation_identifier (Simulation_new seed device c)
        = Ok identifier ∧
        identifier !! "seed" =
          Some (if is_number seed then seed else PStr (str seed)) ∧
        identifier !! "device" =
          Some (if is_number device then device else PStr (str device)).
Proof.
  intros Hcls Hagree. split.
  - unfold construct_simulation_identifier, declared_fields in *.
    rewrite <- Hcls.
    by rewrite (read_fields_ext simulation1 simulation2).
  - intros seed device c.
    destruct (construct_simulation_identifier_Ok (Simulation_new seed device c))
      as (identifier & Hrun & Hlookup).
    + apply Forall_forall. vm_compute.
      repeat (constructor; [by eexists|]). constructor.
    + exists identifier. split; [done|]. rewrite !Hlookup. by vm_compute.
Qed.

Lemma identifier_determined_by_declared_fields_witness :
  construct_simulation_identifier
    (Simulation_new (PInt 3) (PStr "cpu") example_configuration) =
  construct_simulation_identifier
    {| inst_class := Simulation_cls;
       inst_attrs :=
         <["train_dl" := PObj "<DataLoader>"]>
           (inst_attrs (Simulation_new (PInt 3) (PStr "cpu")
                                       example_configuration)) |}.
Proof.
  apply (identifier_determined_by_declared_fields
           (Simulation_new (PInt 3) (PStr "cpu") example_configuration)).
  - reflexivity.
  - apply Forall_forall. vm_compute.
    repeat (constructor; [reflexivity|]). constructor.
Defined.

(** C1, as stated, fails: the same configuration built with seeds 0 and 1,
    or on two devices, gets two different identifiers. *)
Lemma identifier_depends_on_seed_and_device :
  construct_simulation_identifier
    (Simulation_new (PInt 0) (PObj "cpu") example_configuration) ≠
  construct_simulation_identifier
    (Simulation_new (PInt 1) (PObj "cpu") example_configuration)
  ∧
  construct_simulation_identifier
    (Simulation_new (PInt 0) (PObj "cpu") example_configuration) ≠
  construct_simulation_identifier
    (Simulation_new (PInt 0) (PObj "cuda:0") example_configuration).
Proof.
  split; intros Heq; apply (bool_decide_pack _) in Heq; by vm_compute in Heq.
Qed.

(** ** The epoch policy *)

Lemma zip_cycle_from_lookup {A B} (xs : list A) (ys : list B) (k i : nat) :
  (k ≤ length ys)%nat →
  zip_cycle_from xs (drop k ys) ys !! i =
  (x ← xs !! i; y ← ys !! ((k + i) `mod` length ys)%nat; Some (x, y)).
Proof.
  revert k i. induction xs as [|x xs IH]; intros k i Hk; [done|].
  cbn [zip_cycle_from].
  destruct (ys !! k) as [y|] eqn:Hy.
  - rewrite (drop_S _ _ _ Hy). apply lookup_lt_Some in Hy as Hlt.
    destruct i as [|i]; simpl.
    + by rewrite Nat.add_0_r, Nat.mod_small, Hy.
    + rewrite IH by lia. by replace (k + S i)%nat with (S k + i)%nat by lia.
  - apply lookup_ge_None in Hy. rewrite drop_ge by done.
    assert (k = length ys) as -> by lia.
    destruct ys as [|y ys]; simpl length.
    + simpl. rewrite lookup_nil. by destruct (_ !! i).
    + destruct i as [|i]; cbn [lookup list_lookup mbind option_bind].
      * by rewrite Nat.add_0_r, Nat.Div0.mod_same.
      * pose proof (IH 1%nat i) as IH1.
        change (drop 1 (y :: ys)) with ys in IH1.
        etrans; [apply IH1; simpl; lia|]. simpl length.
        replace (S (length ys) + S i)%nat
          with (1 + i + 1 * S (length ys))%nat by lia.
        by rewrite Nat.Div0.mod_add.
Qed.

Lemma zip_cycle_lookup {A B} (xs : list A) (ys : list B) (i : nat) :
  zip_cycle xs ys !! i =
  (x ← xs !! i; y ← ys !! (i `mod` length ys)%nat; Some (x, y)).
Proof. apply (zip_cycle_from_lookup xs ys 0 i). lia. Qed.

Lemma zip_cycle_length {A B} (xs : list A) (ys : list B) :
  length (zip_cycle xs ys) = if ys is [] then 0%nat else length xs.
Proof.
  destruct (decide (ys = [])) as [->|Hne].
  { by destruct xs. }
  assert (0 < length ys)%nat as Hpos by (destruct ys; [done | simpl; lia]).
  assert (∀ i, is_Some (zip_cycle xs ys !! i) ↔ is_Some (xs !! i)) as Hsome.
  { intros i. rewrite zip_cycle_lookup. split.
    - destruct (xs !! i); [by eexists | by intros [? ?]].
    - intros [x ->]. simpl.
      destruct (lookup_lt_is_Some_2 ys (i `mod` length ys)%nat) as [y ->];
        [by apply Nat.mod_upper_bound; lia | by eexists]. }
  assert (length (zip_cycle xs ys) = length xs) as ->.
  { apply Nat.le_antisymm; apply Nat.nlt_ge; intros Hlt.
    - destruct (proj1 (Hsome (length xs))) as [? Hx];
        [by apply lookup_lt_is_Some_2|].
      apply lookup_lt_Some in Hx. lia.
    - destruct (proj2 (Hsome (length (zip_cycle xs ys)))) as [? Hx];
        [by apply lookup_lt_is_Some_2|].
      apply lookup_lt_Some in Hx. lia. }
  by destruct ys.
Qed.


Section pydict_update_facts.
Context {K V : Type} `{EqDecision K}.
Implicit Types (d other : pydict K V) (k : K) (v : V).

Lemma dict_update_cons d k v other :
  dict_update d ((k, v) :: other) = dict_update (dict_set k v d) other.
Proof. done. Qed.

Lemma dict_update_keys d other k :
  k ∈ dict_keys (dict_update d other) ↔ k ∈ dict_keys d ∨ k ∈ other.*1.
Proof.
  revert d. induction other as [|[k' v'] other IH]; intros d.
  - simpl. rewrite elem_of_nil. tauto.
  - rewrite dict_update_cons, IH, dict_keys_set, fmap_cons, elem_of_cons.
    simpl. case_decide as Hin.
    + split; [tauto|]. intros [?|[->|?]]; tauto.
    + rewrite elem_of_app, list_elem_of_singleton. tauto.
Qed.

Lemma dict_update_len_le d other :
  (dict_len (dict_update d other) ≤ dict_len d + length other)%nat.
Proof.
  revert d. induction other as [|[k v] other IH]; intros d.
  - simpl. lia.
  - rewrite dict_update_cons. etrans; [apply IH|].
    rewrite dict_len_set. simpl. case_decide; lia.
Qed.

Lemma dict_update_len_fresh d other :
  NoDup other.*1 →
  (∀ k, k ∈ other.*1 → k ∉ dict_keys d) →
  dict_len (dict_update d other) = (dict_len d + length other)%nat.
Proof.
  revert d. induction other as [|[k v] other IH]; intros d Hnd Hfresh.
  - simpl. lia.
  - rewrite fmap_cons in Hnd. apply NoDup_cons in Hnd as [Hk Hnd].
    rewrite dict_update_cons, IH; [|done|].
    + rewrite dict_len_set, decide_False; [simpl; lia|].
      apply Hfresh. left.
    + intros k' Hin. rewrite dict_keys_set.
      assert (k' ∉ dict_keys d) by (apply Hfresh; by right).
      case_decide; [done|].
      rewrite elem_of_app, list_elem_of_singleton.
      intros [?| ->]; done.
Qed.

Lemma dict_update_get d other k v :
  dict_get k (dict_update d other) = Some v →
  dict_get k d = Some v ∨ (k, v) ∈ other.
Proof.
  revert d. induction other as [|[k' v'] other IH]; intros d; [by left|].
  rewrite dict_update_cons. intros [Hget|Hin]%IH; [|right; by right].
  destruct (decide (k' = k)) as [->|Hne].
  - rewrite dict_get_set_eq in Hget. injection Hget as ->. right. left.
  - rewrite dict_get_set_ne in Hget by done. by left.
Qed.
End pydict_update_facts.

(** ** [prototype_run] *)

Section prototype_facts.
Context {History : Type}.
Variable run : @simulation History → Z → result (@simulation History).

(** The binding one round of the loop of [prototype_run] adds. *)
Definition prototype_entry (self : Experiment) (seed : Z)
    (device : torch_device) (configuration : simulation_factory * Z)
  : result (gmap string pyval * History) :=
  let '(simulation_factory, epochs) := configuration in
  simulation ← simulation_factory seed device;
  simulation ← run simulation epochs;
  simulation_identifier ←
    construct_simulation_identifier (sim_obj simulation);
  Ok (simulation_identifier,
      handle_simulation_output self (history (sim_executor simulation))).

Lemma prototype_loop self seed device sweep entries results :
  Forall2 (λ configuration entry,
             prototype_entry self seed device configuration = Ok entry)
          sweep entries →
  rfold (λ results '(simulation_factory, epochs),
           simulation ← simulation_factory seed device;
           simulation ← run simulation epochs;
           simulation_identifier ←
             construct_simulation_identifier (sim_obj simulation);
           let result :=
             handle_simulation_output self
               (history (sim_executor simulation)) in
           Ok (dict_set simulation_identifier result results))
        results sweep
  = Ok (dict_update results entries).
Proof.
  intros Hentries. revert results.
  induction Hentries as [|[f e] [identifier output] sweep entries Hentry _ IH];
    intros results; [done|].
  cbn [rfold]. rewrite dict_update_cons, <- IH.
  unfold prototype_entry in Hentry.
  destruct (f seed device) as [s0|]; [|done]. simpl in *.
  destruct (run s0 e) as [s1|]; [|done]. simpl in *.
  destruct (construct_simulation_identifier (sim_obj s1)); [|done].
  simpl in *. by injection Hentry as -> ->.
Qed.
End prototype_facts.

(** C9 (as the code has it): when every configuration of the sweep can be
    built and run and has an identifier, [prototype_run] returns a mapping
    whose keys are the identifiers of the configurations, each bound to the
    processed output of a configuration with that identifier; it has at
    most as many entries as there are simulation factories, and exactly as
    many when the epoch list is not empty and the identifiers are pairwise
    distinct. *)
Theorem prototype_run_size {History : Type}
    (run : @simulation History → Z → result (@simulation History))
    (self : Experiment) (seed : Z) (device : torch_device)
    (epochs_per_simulation : epochs_arg)
    (entries : list (gmap string pyval * History)) :
  Forall2 (λ configuration entry,
             prototype_entry run self seed device configuration = Ok entry)
          (zip_cycle (simulation_factories self)
                     (epochs_list epochs_per_simulation))
          entries →
  ∃ results,
    prototype_run run self seed device epochs_per_simulation = Ok results ∧
    NoDup (dict_keys results) ∧
    (∀ identifier, identifier ∈ dict_keys results ↔ identifier ∈ entries.*1) ∧
    (∀ identifier output,
       dict_get identifier results = Some output →
       (identifier, output) ∈ entries) ∧
    (dict_len results ≤ length (simulation_factories self))%nat ∧
    (epochs_list epochs_per_simulation ≠ [] → NoDup entries.*1 →
     dict_len results = length (simulation_factories self)).
Proof.
  intros Hentries. exists (dict_update [] entries).
  pose proof (Forall2_length _ _ _ Hentries) as Hlen.
  rewrite zip_cycle_length in Hlen.
  split_and!.
  - by apply prototype_loop.
  - apply dict_update_NoDup, NoDup_nil_2.
  - intros identifier. rewrite dict_update_keys.
    split; [intros [[]%elem_of_nil|]; done | by right].
  - intros identifier output [|]%dict_update_get; done.
  - etrans; [apply dict_update_len_le|]. simpl.
    destruct (epochs_list epochs_per_simulation); lia.
  - intros Hne Hnd. rewrite dict_update_len_fresh; [|done|].
    + simpl. by destruct (epochs_list epochs_per_simulation).
    + intros identifier _. apply not_elem_of_nil.
Qed.

Lemma prototype_run_size_witness :
  ∃ results,
    prototype_run toy_run toy_experiment 0 cpu (EpochsList [5; 2]) = Ok results ∧
    dict_len results = 3%nat.
Proof.
  edestruct (prototype_run_size toy_run toy_experiment 0 cpu (EpochsList [5; 2]))
    as (results & Hrun & _ & _ & _ & _ & Hsize).
  - repeat econstructor.
  - exists results. split; [exact Hrun|]. apply Hsize; [done|].
    apply (bool_decide_unpack _). by vm_compute.
Defined.

(** C9, as stated, fails: a sweep of two factories for the same
    configuration yields a mapping with a single entry. *)
Lemma prototype_run_merges_equal_identifiers :
  ∃ results,
    prototype_run toy_run twin_experiment 3 cpu (EpochsInt 5) = Ok results ∧
    dict_len results = 1%nat ∧
    length (simulation_factories twin_experiment) = 2%nat.
Proof. eexists. split; [by vm_compute | done]. Qed.

(** C6: the configuration at position [i] of the sweep is paired with the
    epoch count at position [i mod n] of a list of [n] epoch counts; three
    configurations with [[5; 2]] receive 5, 2 and 5, as the histories show
    which [prototype_run] returns and which [full_run] persists. *)
Theorem epochs_are_cycled {History : Type}
    (factories : list (@simulation_factory History))
    (epochs_per_simulation : list Z) :
  (∀ i,
     zip_cycle factories epochs_per_simulation !! i =
     (simulation_factory ← factories !! i;
      epochs ← epochs_per_simulation
                 !! (i `mod` length epochs_per_simulation)%nat;
      Some (simulation_factory, epochs))) ∧
  (∀ f1 f2 f3 : @simulation_factory History,
     zip_cycle [f1; f2; f3] [5; 2] = [(f1, 5); (f2, 2); (f3, 5)]) ∧
  (∃ results,
     prototype_run toy_run toy_experiment 0 cpu (EpochsList [5; 2])
     = Ok results ∧
     results.*2 = [[5]; [2]; [5]]) ∧
  (∃ w,
     full_run toy_run no_fault toy_experiment 1 1 [cpu] (EpochsList [5; 2])
              empty_world = (w, Ok ()) ∧
     saved_histories w = [[[5]]; [[2]]; [[5]]]).
Proof.
  split_and!.
  - intros i. apply zip_cycle_lookup.
  - done.
  - eexists. split; by vm_compute.
  - eexists. split; by vm_compute.
Qed.


(** ** Pools *)

Lemma completion_order_Permutation (pending choices : list nat) :
  completion_order pending (length pending) choices ≡ₚ pending.
Proof.
  remember (length pending) as fuel eqn:Hfuel.
  revert pending choices Hfuel.
  induction fuel as [|fuel IH]; intros pending choices Hfuel.
  - by destruct pending.
  - cbn [completion_order].
    destruct (lookup_lt_is_Some_2 pending
                (hd 0%nat choices `mod` length pending)%nat) as [task Htask].
    { apply Nat.mod_upper_bound. lia. }
    rewrite Htask.
    etrans; [|symmetry; by apply (delete_Permutation _ _ _ Htask)].
    constructor. apply IH. rewrite length_delete by eauto. lia.
Qed.

Lemma completion_order_seq (n : nat) (choices : list nat) :
  completion_order (seq 0 n) n choices ≡ₚ seq 0 n.
Proof.
  pose proof (completion_order_Permutation (seq 0 n) choices) as Hperm.
  by rewrite length_seq in Hperm.
Qed.

Section pool_facts.
Context {History : Type}.
Variable run : @simulation History → Z → result (@simulation History).

Abbreviation step args :=
  (λ (value : map_value) (i : nat),
     match args !! i with
     | Some a => _set value i (_job run a)
     | None => value
     end).

Lemma Failure_absorbing (args : list job_args) e order :
  foldl (step args) (Failure e) order = Failure e.
Proof. induction order as [|i order IH]; [done|]. simpl. by destruct (args !! i). Qed.

Abbreviation fill outs :=
  (λ (slots : list (option (@job_result History))) (i : nat),
     match outs !! i with
     | Some r => <[i := Some r]> slots
     | None => slots
     end).

Lemma fill_length (outs : list job_result) order slots :
  length (foldl (fill outs) slots order) = length slots.
Proof.
  revert slots. induction order as [|i order IH]; intros slots; [done|].
  simpl. rewrite IH. destruct (outs !! i); [apply length_insert | done].
Qed.

Lemma fill_lookup (outs : list job_result) order slots j :
  length slots = length outs →
  foldl (fill outs) slots order !! j =
  if decide (j ∈ order) then Some <$> outs !! j else slots !! j.
Proof.
  revert slots. induction order as [|i order IH]; intros slots Hlen.
  - cbn [foldl]. rewrite decide_False; [done | apply not_elem_of_nil].
  - cbn [foldl]. rewrite IH by (destruct (outs !! i);
                                [by rewrite length_insert | done]).
    destruct (decide (j ∈ order)) as [Hin|Hnin].
    { rewrite decide_True; [done | by right]. }
    destruct (decide (j = i)) as [->|Hne].
    + rewrite decide_True by left.
      destruct (outs !! i) as [r|] eqn:Hr; simpl.
      * apply list_lookup_insert_eq. rewrite Hlen.
        by apply lookup_lt_Some in Hr.
      * apply lookup_ge_None. rewrite Hlen. by apply lookup_ge_None.
    + rewrite decide_False by (by intros [?|?]%elem_of_cons).
      destruct (outs !! i); [by apply list_lookup_insert_ne | done].
Qed.

Lemma completed_fill (args : list job_args) outs order slots :
  Forall2 (λ a r, _job run a = Ok r) args outs →
  foldl (step args) (Slots slots) order =
  Slots (foldl (fill outs) slots order).
Proof.
  intros Hjobs. revert slots.
  induction order as [|i order IH]; intros slots; [done|].
  cbn [foldl]. destruct (args !! i) as [a|] eqn:Ha.
  - destruct (Forall2_lookup_l _ _ _ _ _ Hjobs Ha) as (r & -> & ->).
    apply IH.
  - apply lookup_ge_None in Ha. rewrite (Forall2_length _ _ _ Hjobs) in Ha.
    apply lookup_ge_None in Ha as ->. apply IH.
Qed.

Lemma completed_Ok (args : list job_args) outs order :
  Forall2 (λ a r, _job run a = Ok r) args outs →
  order ≡ₚ seq 0 (length args) →
  completed run args order = Slots (Some <$> outs).
Proof.
  intros Hjobs Horder. unfold completed.
  rewrite (completed_fill args outs) by done. f_equal.
  pose proof (Forall2_length _ _ _ Hjobs) as Hlen.
  apply list_eq. intros j.
  rewrite fill_lookup, list_lookup_fmap by (by rewrite length_replicate).
  case_decide as Hin; [done|].
  rewrite Horder, elem_of_seq in Hin.
  rewrite (proj2 (lookup_ge_None outs j)) by lia. simpl.
  apply lookup_ge_None. rewrite length_replicate. lia.
Qed.

Lemma completed_Failure_from (args : list job_args) order value :
  (∃ i a, i ∈ order ∧ args !! i = Some a ∧ is_ok (_job run a) = false) →
  ∃ e, foldl (step args) value order = Failure e ∧
       (value = Failure e ∨ ∃ a, a ∈ args ∧ _job run a = Raise e).
Proof.
  revert value. induction order as [|i order IH];
    intros value (i0 & a0 & Hin & Ha0 & Hfail).
  { by apply elem_of_nil in Hin. }
  cbn [foldl]. destruct value as [slots|e0].
  2:{ exists e0. split; [|by left].
      destruct (args !! i); apply Failure_absorbing. }
  destruct (args !! i) as [a|] eqn:Ha.
  - destruct (_job run a) as [r|e] eqn:Hjob; simpl.
    + destruct (IH (Slots (<[i:=Some r]> slots))) as (e & -> & [?|?]);
        [|done|by eauto].
      apply elem_of_cons in Hin as [->|Hin]; [|by eauto 6].
      rewrite Ha in Ha0. injection Ha0 as ->. by rewrite Hjob in Hfail.
    + exists e. split; [apply Failure_absorbing|]. right. exists a.
      split; [by eapply list_elem_of_lookup_2 | done].
  - destruct (IH (Slots slots)) as (e & -> & [?|?]); [|done|by eauto].
    apply elem_of_cons in Hin as [->|Hin]; [congruence | by eauto 6].
Qed.

Lemma completed_Failure (args : list job_args) order :
  Exists (λ a, is_ok (_job run a) = false) args →
  order ≡ₚ seq 0 (length args) →
  ∃ e, completed run args order = Failure e ∧
       ∃ a, a ∈ args ∧ _job run a = Raise e.
Proof.
  intros (a & Hin & Hfail)%Exists_exists Horder.
  apply list_elem_of_lookup in Hin as [i Hi].
  destruct (completed_Failure_from args order
              (Slots (replicate (length args) None)))
    as (e & He & [?|?]); [|done|by eauto].
  exists i, a. split_and!; [|done..].
  rewrite Horder, elem_of_seq. apply lookup_lt_Some in Hi. lia.
Qed.

Lemma batch_outputs_Some (args : list job_args) outs :
  batch_outputs run args = Some outs ↔
  Forall2 (λ a r, _job run a = Ok r) args outs.
Proof.
  unfold batch_outputs. rewrite mapM_Some. unfold job_output.
  split; intros H; (eapply Forall2_impl; [exact H|]); intros a r; simpl;
    destruct (_job run a); naive_solver.
Qed.

Lemma batch_outputs_None (args : list job_args) :
  batch_outputs run args = None →
  Exists (λ a, is_ok (_job run a) = false) args.
Proof.
  unfold batch_outputs. intros Hnone%mapM_None_1.
  eapply Exists_impl; [exact Hnone|]. intros a. unfold job_output.
  by destruct (_job run a).
Qed.

Lemma get_Ok (p : nat) (args : list job_args) outs pools saved sched :
  batch_outputs run args = Some outs →
  get run {| mr_pool := p; mr_args := args |}
      {| w_pools := pools; w_saved := saved; w_sched := sched |} =
  ({| w_pools :=
        alter (λ q, {| pool_processes := pool_processes q;
                       pool_status := pool_status q;
                       pool_joined := pool_joined q;
                       pool_tasks := pool_tasks q;
                       pool_retrieved := true |}) p pools;
      w_saved := saved;
      w_sched := drop (length args) sched |}, Ok outs).
Proof.
  intros Houts%batch_outputs_Some. unfold get. cbn [mr_args mr_pool w_sched w_pools w_saved].
  rewrite (completed_Ok args outs) by (done || apply completion_order_seq).
  by rewrite mapM_fmap_Some.
Qed.

Lemma get_Raise (p : nat) (args : list job_args) pools saved sched :
  batch_outputs run args = None →
  ∃ e,
    get run {| mr_pool := p; mr_args := args |}
        {| w_pools := pools; w_saved := saved; w_sched := sched |} =
    ({| w_pools := pools; w_saved := saved;
        w_sched := drop (length args) sched |}, Raise e) ∧
    ∃ a, a ∈ args ∧ _job run a = Raise e.
Proof.
  intros Hfail%batch_outputs_None. unfold get. cbn [mr_args mr_pool w_sched w_pools w_saved].
  destruct (completed_Failure args
              (completion_order (seq 0 (length args)) (length args) sched))
    as (e & -> & Hraised); [done|apply completion_order_seq|by eauto].
Qed.
End pool_facts.

(** ** [full_run], phase by phase *)

Lemma lookup_app_length_add {A} (l1 l2 : list A) (i : nat) :
  (l1 ++ l2) !! (length l1 + i)%nat = l2 !! i.
Proof.
  rewrite lookup_app_r by apply Nat.le_add_r. f_equal. lia.
Qed.

Lemma alter_at_length {A} (f : A → A) (l : list A) (x : A) (rest : list A) :
  alter f (length l) (l ++ x :: rest) = l ++ f x :: rest.
Proof. induction l as [|y l IH]; [done|]. simpl. by f_equal. Qed.

Section full_run_facts.
Context {History : Type}.
Variable run : @simulation History → Z → result (@simulation History).
Variable store_fault : @bundle History → string → option exn.
Variable self : @Experiment History.
Variables n_runs_per_device n_processes_per_device : Z.

Lemma M_bind_unfold {A B} (m : @M History A) (k : A → @M History B) w :
  (m ≫= k) w =
  match m w with
  | (w', Ok a) => k a w'
  | (w', Raise e) => (w', Raise e)
  end.
Proof. done. Qed.

Lemma M_bind_Ok {A B} (m : @M History A) (k : A → @M History B) w w' a :
  m w = (w', Ok a) → (m ≫= k) w = k a w'.
Proof. intros Hm. by rewrite M_bind_unfold, Hm. Qed.

Lemma M_bind_Raise {A B} (m : @M History A) (k : A → @M History B) w w' e :
  m w = (w', Raise e) → (m ≫= k) w = (w', Raise e).
Proof. intros Hm. by rewrite M_bind_unfold, Hm. Qed.

Lemma create_pools devices (pools : list (@pool History))
    (saved : list (@bundle History * string)) (sched : list nat) :
  (n_processes_per_device <? 1) = false →
  mfor (λ device : torch_device, Pool n_processes_per_device) devices
       {| w_pools := pools; w_saved := saved; w_sched := sched |} =
  ({| w_pools := pools ++ replicate (length devices)
                                    (idle_pool n_processes_per_device);
      w_saved := saved; w_sched := sched |},
   Ok (seq (length pools) (length devices))).
Proof.
  intros Hprocesses. revert pools.
  induction devices as [|device devices IH]; intros pools.
  - simpl. by rewrite app_nil_r.
  - cbn [mfor]. erewrite M_bind_Ok; last first.
    { unfold Pool. rewrite Hprocesses. reflexivity. }
    unfold set_pools. cbn [w_pools w_saved w_sched].
    erewrite M_bind_Ok by apply IH.
    rewrite length_app, <- app_assoc. simpl.
    by rewrite Nat.add_1_r.
Qed.

Lemma create_pools_refused device devices (w : @world History) :
  (n_processes_per_device <? 1) = true →
  mfor (λ device : torch_device, Pool n_processes_per_device)
       (device :: devices) w =
  (w, Raise (ValueError "Number of processes must be at least 1")).
Proof.
  intros Hprocesses. cbn [mfor]. apply M_bind_Raise.
  unfold Pool. by rewrite Hprocesses.
Qed.

Section one_configuration.
Variable simulation_factory : @simulation_factory History.
Variable epochs : Z.

Lemma submit_jobs devices pool_id (pools : list (@pool History))
    (saved : list (@bundle History * string)) (sched : list nat) :
  mfor (λ '(pool_id, (pool, device)),
          starmap_async pool
            (device_args simulation_factory n_runs_per_device
                         pool_id device epochs))
       (zip (seq pool_id (length devices))
            (zip (seq (length pools) (length devices)) devices))
       {| w_pools := pools ++ replicate (length devices)
                                        (idle_pool n_processes_per_device);
          w_saved := saved; w_sched := sched |} =
  ({| w_pools := pools ++ submitted_from n_runs_per_device
                            n_processes_per_device simulation_factory epochs
                            pool_id devices;
      w_saved := saved; w_sched := sched |},
   Ok (handles_from n_runs_per_device simulation_factory epochs
                    pool_id (length pools) devices)).
Proof.
  revert pool_id pools.
  induction devices as [|device devices IH]; intros pool_id pools; [done|].
  cbn [length seq zip zip_with mfor replicate submitted_from handles_from].
  erewrite M_bind_Ok; last first.
  { unfold starmap_async. cbn [w_pools].
    rewrite list_lookup_middle by done. reflexivity. }
  unfold set_pools. cbn [w_pools w_saved w_sched].
  replace (alter _ (length pools) _) with
    ((pools ++ [busy_pool n_processes_per_device
                  (device_args simulation_factory n_runs_per_device
                               pool_id device epochs)])
     ++ replicate (length devices) (idle_pool n_processes_per_device)).
  2:{ by rewrite alter_at_length, <- app_assoc. }
  replace (S (length pools)) with
    (length (pools ++ [busy_pool n_processes_per_device
                         (device_args simulation_factory n_runs_per_device
                                      pool_id device epochs)]))
    by (rewrite length_app; simpl; lia).
  erewrite M_bind_Ok by apply IH.
  rewrite <- app_assoc. simpl. rewrite length_app. simpl.
  by rewrite Nat.add_1_r.
Qed.

Lemma collect_one_Ok (args : list job_args) outputs all_outputs
    (pools rest : list (@pool History))
    (saved : list (@bundle History * string)) (sched : list nat) :
  batch_outputs run args = Some outputs →
  (outputs ← get run {| mr_pool := length pools; mr_args := args |};
   close (length pools);;
   join (length pools);;
   mret (all_outputs ++ outputs))
    {| w_pools := pools ++ busy_pool n_processes_per_device args :: rest;
       w_saved := saved; w_sched := sched |} =
  ({| w_pools := pools ++ finished_pool n_processes_per_device args :: rest;
      w_saved := saved; w_sched := drop (length args) sched |},
   Ok (all_outputs ++ outputs)).
Proof.
  intros Houtputs.
  erewrite M_bind_Ok by (by apply get_Ok).
  rewrite alter_at_length.
  erewrite M_bind_Ok by reflexivity.
  unfold set_pools. cbn [w_pools w_saved w_sched]. rewrite alter_at_length.
  erewrite M_bind_Ok; last first.
  { unfold join. cbn [w_pools]. rewrite list_lookup_middle by done.
    reflexivity. }
  unfold set_pools. cbn [w_pools w_saved w_sched]. by rewrite alter_at_length.
Qed.

Lemma collect_one_Raise (args : list job_args) all_outputs
    (pools rest : list (@pool History))
    (saved : list (@bundle History * string)) (sched : list nat) :
  batch_outputs run args = None →
  ∃ e,
    (outputs ← get run {| mr_pool := length pools; mr_args := args |};
     close (length pools);;
     join (length pools);;
     mret (all_outputs ++ outputs))
      {| w_pools := pools ++ busy_pool n_processes_per_device args :: rest;
         w_saved := saved; w_sched := sched |} =
    ({| w_pools := pools ++ busy_pool n_processes_per_device args :: rest;
        w_saved := saved; w_sched := drop (length args) sched |}, Raise e) ∧
    ∃ a, a ∈ args ∧ _job run a = Raise e.
Proof.
  intros Hfail.
  destruct (get_Raise run (length pools) args
              (pools ++ busy_pool n_processes_per_device args :: rest)
              saved sched Hfail) as (e & Hget & Hraised).
  exists e. split; [|done]. by apply M_bind_Raise.
Qed.

Lemma collect_outputs devices pool_id all_outputs
    (pools : list (@pool History))
    (saved : list (@bundle History * string)) (sched : list nat) :
  ∃ sched' r,
    mfold (λ all_outputs '(pool, result),
             outputs ← get run result;
             close pool;;
             join pool;;
             mret (all_outputs ++ outputs))
          all_outputs
          (zip (seq (length pools) (length devices))
               (handles_from n_runs_per_device simulation_factory epochs
                             pool_id (length pools) devices))
          {| w_pools := pools ++ submitted_from n_runs_per_device
                                   n_processes_per_device simulation_factory
                                   epochs pool_id devices;
             w_saved := saved; w_sched := sched |} =
    ({| w_pools := pools ++ settled_from run n_runs_per_device
                              n_processes_per_device simulation_factory
                              epochs pool_id devices;
        w_saved := saved; w_sched := sched' |}, r) ∧
    match gathered_from run n_runs_per_device simulation_factory epochs
                        pool_id devices with
    | Some outputs => r = Ok (all_outputs ++ outputs)
    | None =>
        ∃ e, r = Raise e ∧
             ∃ args,
               args ∈ culprits_from run n_runs_per_device simulation_factory
                                    epochs pool_id devices ∧
               _job run args = Raise e
    end.
Proof.
  revert pool_id all_outputs pools sched.
  induction devices as [|device devices IH];
    intros pool_id all_outputs pools sched.
  { exists sched, (Ok all_outputs). simpl. by rewrite !app_nil_r. }
  cbn [length seq zip zip_with mfold submitted_from handles_from
       settled_from gathered_from culprits_from].
  set (args := device_args simulation_factory n_runs_per_device
                           pool_id device epochs).
  destruct (batch_outputs run args) as [outputs|] eqn:Hbatch.
  - erewrite M_bind_Ok by (by apply collect_one_Ok).
    destruct (IH (S pool_id) (all_outputs ++ outputs)
                 (pools ++ [finished_pool n_processes_per_device args])
                 (drop (length args) sched)) as (sched' & r & Hloop & Hr).
    rewrite length_app, Nat.add_1_r, <- !app_assoc in Hloop.
    exists sched', r. split; [exact Hloop|]. simpl.
    destruct (gathered_from _ _ _ _ _ _); simpl; [|done].
    by rewrite app_assoc.
  - destruct (collect_one_Raise args all_outputs pools
                (submitted_from n_runs_per_device n_processes_per_device
                                simulation_factory epochs (S pool_id) devices)
                saved sched Hbatch) as (e & Hone & Hraised).
    exists (drop (length args) sched), (Raise e). split.
    + by apply M_bind_Raise.
    + simpl. by eauto.
Qed.

Lemma create_pools_allowed devices (pools : list (@pool History))
    (saved : list (@bundle History * string)) (sched : list nat) :
  pools_refused n_processes_per_device devices = false →
  mfor (λ device : torch_device, Pool n_processes_per_device) devices
       {| w_pools := pools; w_saved := saved; w_sched := sched |} =
  ({| w_pools := pools ++ replicate (length devices)
                                    (idle_pool n_processes_per_device);
      w_saved := saved; w_sched := sched |},
   Ok (seq (length pools) (length devices))).
Proof.
  unfold pools_refused. intros Hallowed.
  destruct devices as [|device devices].
  - simpl. by rewrite app_nil_r.
  - apply create_pools. by destruct (n_processes_per_device <? 1).
Qed.

Lemma run_configuration_spec devices experiment_id
    (pools : list (@pool History))
    (saved : list (@bundle History * string)) (sched : list nat) :
  ∃ sched' r,
    run_configuration run store_fault self n_runs_per_device
                      n_processes_per_device devices experiment_id
                      (simulation_factory, epochs)
                      {| w_pools := pools; w_saved := saved;
                         w_sched := sched |} =
    ({| w_pools :=
          pools ++ configuration_pools run n_runs_per_device
                     n_processes_per_device devices
                     (simulation_factory, epochs);
        w_saved :=
          saved ++ option_list
                     (configuration_bundle run store_fault self
                        n_runs_per_device n_processes_per_device devices
                        experiment_id (simulation_factory, epochs));
        w_sched := sched' |}, r) ∧
    match configuration_bundle run store_fault self n_runs_per_device
                               n_processes_per_device devices experiment_id
                               (simulation_factory, epochs) with
    | Some _ => r = Ok (experiment_id + 1)
    | None =>
        ∃ e, r = Raise e ∧
             raised_by run n_runs_per_device n_processes_per_device devices
                       (simulation_factory, epochs) e
    end.
Proof.
  unfold run_configuration, configuration_pools, configuration_bundle,
    raised_by.
  destruct (pools_refused n_processes_per_device devices) eqn:Hrefused.
  { unfold pools_refused in Hrefused.
    apply andb_true_iff in Hrefused as [Hprocesses Hdevices].
    destruct devices as [|device devices]; [done|].
    exists sched. eexists. split.
    - erewrite M_bind_Raise by (by apply create_pools_refused).
      by rewrite !app_nil_r.
    - eexists. split; [done|]. by intros. }
  erewrite M_bind_Ok by (by apply create_pools_allowed).
  unfold enumerate.
  rewrite length_zip, length_seq, Nat.min_id.
  erewrite M_bind_Ok by apply submit_jobs.
  destruct (collect_outputs devices 0%nat [] pools saved sched)
    as (sched' & r & Hcollect & Hr).
  cbn [fst snd].
  destruct (gathered_from _ _ _ _ _ _) as [all_outputs|] eqn:Hgathered.
  2:{ destruct Hr as (e & -> & Hraised).
      exists sched'. eexists. split.
      - erewrite M_bind_Raise by exact Hcollect. by rewrite app_nil_r.
      - simpl. by eauto. }
  subst r. erewrite M_bind_Ok by exact Hcollect.
  simpl (mbind _ (Some _)). simpl ([] ++ all_outputs).
  destruct (simulation_factory 0 cpu) as [simulation|e] eqn:Hbuild.
  2:{ exists sched'. eexists. split.
      - erewrite M_bind_Raise by reflexivity. by rewrite app_nil_r.
      - simpl. exists e. split; [done|]. by intros. }
  erewrite M_bind_Ok by reflexivity.
  simpl (mbind _ (Ok _)).
  destruct (construct_simulation_identifier (sim_obj simulation))
    as [simulation_identifier|e] eqn:Hidentifier.
  2:{ exists sched'. eexists. split.
      - erewrite M_bind_Raise by reflexivity. by rewrite app_nil_r.
      - exists e. split; [done|]. by intros. }
  erewrite M_bind_Ok by reflexivity.
  destruct (store_fault _ _) as [e|] eqn:Hstore.
  - exists sched'. eexists. split.
    + erewrite M_bind_Raise; [by rewrite app_nil_r|].
      unfold save_to_disk. by rewrite Hstore.
    + exists e. split; [done|]. by intros.
  - exists sched'. eexists. split; [|done].
    erewrite M_bind_Ok; [reflexivity|].
    unfold save_to_disk. by rewrite Hstore.
Qed.
End one_configuration.

Lemma full_run_loop devices sweep experiment_id
    (pools : list (@pool History))
    (saved : list (@bundle History * string)) (sched : list nat) :
  ∃ sched' r,
    mfold (run_configuration run store_fault self n_runs_per_device
                             n_processes_per_device devices)
          experiment_id sweep
          {| w_pools := pools; w_saved := saved; w_sched := sched |} =
    ({| w_pools :=
          pools ++ expected_pools run store_fault self n_runs_per_device
                     n_processes_per_device devices experiment_id sweep;
        w_saved :=
          saved ++ expected_saved run store_fault self n_runs_per_device
                     n_processes_per_device devices experiment_id sweep;
        w_sched := sched' |}, r) ∧
    expected_result run store_fault self n_runs_per_device
                    n_processes_per_device devices experiment_id sweep r.
Proof.
  revert experiment_id pools saved sched.
  induction sweep as [|[simulation_factory epochs] sweep IH];
    intros experiment_id pools saved sched.
  { exists sched, (Ok experiment_id). simpl. by rewrite !app_nil_r. }
  destruct (run_configuration_spec simulation_factory epochs devices
              experiment_id pools saved sched) as (sched1 & r1 & Hrun & Hr1).
  cbn [mfold expected_pools expected_saved expected_result].
  destruct (configuration_bundle _ _ _ _ _ _ _ _) as [persisted|].
  - subst r1. change (option_list (Some persisted)) with [persisted] in Hrun.
    erewrite M_bind_Ok by exact Hrun.
    destruct (IH (experiment_id + 1)
                 (pools ++ configuration_pools run n_runs_per_device
                             n_processes_per_device devices
                             (simulation_factory, epochs))
                 (saved ++ [persisted]) sched1) as (sched' & r & Hloop & Hr).
    exists sched', r. split; [|done].
    rewrite Hloop. by rewrite <- !app_assoc.
  - destruct Hr1 as (e & -> & Hraised).
    exists sched1, (Raise e). split; [|by eauto].
    erewrite M_bind_Raise by exact Hrun. simpl. by rewrite !app_nil_r.
Qed.
End full_run_facts.

(** ** The pools and outputs of one configuration, position by position *)

Section expected_facts.
Context {History : Type}.
Variable run : @simulation History → Z → result (@simulation History).
Variables n_runs_per_device n_processes_per_device : Z.
Variable simulation_factory : @simulation_factory History.
Variable epochs : Z.

Abbreviation args_at := (device_args simulation_factory n_runs_per_device).
Abbreviation settled :=
  (settled_from run n_runs_per_device n_processes_per_device
                simulation_factory epochs).
Abbreviation submitted :=
  (submitted_from n_runs_per_device n_processes_per_device
                  simulation_factory epochs).
Abbreviation gathered :=
  (gathered_from run n_runs_per_device simulation_factory epochs).
Abbreviation culprits :=
  (culprits_from run n_runs_per_device simulation_factory epochs).

Lemma submitted_from_lookup pool_id devices p :
  submitted pool_id devices !! p =
  (λ device, busy_pool n_processes_per_device
               (args_at (pool_id + p)%nat device epochs)) <$> devices !! p.
Proof.
  revert pool_id p. induction devices as [|device devices IH];
    intros pool_id p; [done|].
  destruct p as [|p]; simpl.
  - by rewrite Nat.add_0_r.
  - rewrite IH. by replace (S pool_id + p)%nat with (pool_id + S p)%nat by lia.
Qed.

Lemma settled_from_length pool_id devices :
  length (settled pool_id devices) = length devices.
Proof.
  revert pool_id. induction devices as [|device devices IH]; intros pool_id;
    [done|].
  cbn [settled_from]. destruct (batch_outputs _ _); simpl; [by rewrite IH|].
  f_equal. clear IH. revert pool_id.
  induction devices as [|device' devices IH]; intros pool_id; [done|].
  simpl. by rewrite (IH (S pool_id)).
Qed.

Lemma settled_from_lookup pool_id devices p q :
  settled pool_id devices !! p = Some q →
  ∃ device,
    devices !! p = Some device ∧
    ((q = finished_pool n_processes_per_device
            (args_at (pool_id + p)%nat device epochs) ∧
      ∀ p' device', (p' ≤ p)%nat → devices !! p' = Some device' →
        is_Some (batch_outputs run (args_at (pool_id + p')%nat device' epochs)))
     ∨
     (q = busy_pool n_processes_per_device
            (args_at (pool_id + p)%nat device epochs) ∧
      ∃ p' device', (p' ≤ p)%nat ∧ devices !! p' = Some device' ∧
        batch_outputs run (args_at (pool_id + p')%nat device' epochs) = None)).
Proof.
  revert pool_id p. induction devices as [|device devices IH];
    intros pool_id p; [done|].
  cbn [settled_from].
  destruct (batch_outputs run (args_at pool_id device epochs))
    as [outputs|] eqn:Hbatch.
  - destruct p as [|p]; simpl.
    + intros [= <-]. exists device. split; [done|]. left.
      rewrite Nat.add_0_r. split; [done|].
      intros p' device' Hp' Hdevice'. assert (p' = 0%nat) as -> by lia.
      simpl in Hdevice'. injection Hdevice' as <-.
      rewrite Nat.add_0_r, Hbatch. by eexists.
    + intros (device0 & Hdevice0 & Hq)%IH. exists device0. split; [done|].
      replace (pool_id + S p)%nat with (S pool_id + p)%nat by lia.
      destruct Hq as [[-> Hall]|(-> & p' & device' & Hp' & Hdevice' & Hnone)].
      * left. split; [done|]. intros [|p'] device' Hp' Hdevice'.
        -- simpl in Hdevice'. injection Hdevice' as <-.
           rewrite Nat.add_0_r, Hbatch. by eexists.
        -- replace (pool_id + S p')%nat with (S pool_id + p')%nat by lia.
           apply Hall; [lia | done].
      * right. split; [done|]. exists (S p'), device'. split_and!; [lia|done|].
        by replace (pool_id + S p')%nat with (S pool_id + p')%nat by lia.
  - intros Hq. rewrite submitted_from_lookup in Hq.
    destruct ((device :: devices) !! p) as [device0|] eqn:Hdevice0; [|done].
    injection Hq as <-. exists device0. split; [done|]. right.
    split; [done|]. exists 0%nat, device. split_and!; [lia|done|].
    by rewrite Nat.add_0_r.
Qed.

Lemma gathered_from_Some pool_id devices outputs :
  gathered pool_id devices = Some outputs →
  (∀ p device, devices !! p = Some device →
     is_Some (batch_outputs run (args_at (pool_id + p)%nat device epochs))) ∧
  Ok <$> outputs =
  concat (imap (λ p device,
                  _job run <$> args_at (pool_id + p)%nat device epochs)
               devices).
Proof.
  revert pool_id outputs. induction devices as [|device devices IH];
    intros pool_id outputs.
  { intros [= <-]. split; [|done]. by intros p device' ?. }
  cbn [gathered_from].
  destruct (batch_outputs run (args_at pool_id device epochs))
    as [first|] eqn:Hbatch; [|done].
  simpl. destruct (gathered (S pool_id) devices) as [rest|] eqn:Hrest; [|done].
  intros [= <-]. destruct (IH _ _ Hrest) as [Hall Hconcat]. split.
  - intros [|p] device' Hdevice'.
    + simpl in Hdevice'. injection Hdevice' as <-.
      rewrite Nat.add_0_r, Hbatch. by eexists.
    + replace (pool_id + S p)%nat with (S pool_id + p)%nat by lia.
      by apply Hall.
  - rewrite fmap_app, Hconcat. simpl. rewrite Nat.add_0_r. f_equal.
    + apply batch_outputs_Some in Hbatch. clear -Hbatch.
      induction Hbatch as [|a r args outs Hjob _ IHb]; [done|].
      rewrite !fmap_cons. by rewrite Hjob, IHb.
    + f_equal. apply imap_ext. intros p device' _. simpl.
      by replace (pool_id + S p)%nat with (S pool_id + p)%nat by lia.
Qed.

Lemma gathered_from_None pool_id devices :
  gathered pool_id devices = None →
  ∃ p device,
    devices !! p = Some device ∧
    batch_outputs run (args_at (pool_id + p)%nat device epochs) = None ∧
    (∀ p' device', (p' < p)%nat → devices !! p' = Some device' →
       is_Some (batch_outputs run (args_at (pool_id + p')%nat device' epochs))) ∧
    culprits pool_id devices = args_at (pool_id + p)%nat device epochs.
Proof.
  revert pool_id. induction devices as [|device devices IH];
    intros pool_id; [done|].
  cbn [gathered_from culprits_from].
  destruct (batch_outputs run (args_at pool_id device epochs))
    as [first|] eqn:Hbatch.
  - simpl. destruct (gathered (S pool_id) devices) as [rest|] eqn:Hrest;
      [done|]. intros _.
    destruct (IH _ Hrest) as (p & device0 & Hdevice0 & Hnone & Hbefore & Hculprits).
    exists (S p), device0.
    replace (pool_id + S p)%nat with (S pool_id + p)%nat by lia.
    split_and!; [done..| |done].
    intros [|p'] device' Hp' Hdevice'.
    + simpl in Hdevice'. injection Hdevice' as <-.
      rewrite Nat.add_0_r, Hbatch. by eexists.
    + replace (pool_id + S p')%nat with (S pool_id + p')%nat by lia.
      apply Hbefore; [lia | done].
  - intros _. exists 0%nat, device. rewrite Nat.add_0_r.
    split_and!; [done..| |done]. intros p' device' Hp'. lia.
Qed.

Lemma gathered_from_fails pool_id devices p device :
  devices !! p = Some device →
  batch_outputs run (args_at (pool_id + p)%nat device epochs) = None →
  gathered pool_id devices = None.
Proof.
  intros Hdevice Hnone.
  destruct (gathered pool_id devices) as [outputs|] eqn:Hgathered; [|done].
  destruct (gathered_from_Some _ _ _ Hgathered) as [Hall _].
  destruct (Hall p device Hdevice) as [? Hsome]. congruence.
Qed.
End expected_facts.

(** ** The pools and bundles of a sweep *)

Section sweep_facts.
Context {History : Type}.
Variable run : @simulation History → Z → result (@simulation History).
Variable store_fault : @bundle History → string → option exn.
Variable self : @Experiment History.
Variables n_runs_per_device n_processes_per_device : Z.
Variable devices_list : list torch_device.

Abbreviation bundle_of :=
  (configuration_bundle run store_fault self n_runs_per_device
                        n_processes_per_device devices_list).
Abbreviation pools_of :=
  (configuration_pools run n_runs_per_device n_processes_per_device
                       devices_list).
Abbreviation saved_from :=
  (expected_saved run store_fault self n_runs_per_device
                  n_processes_per_device devices_list).
Abbreviation pools_from :=
  (expected_pools run store_fault self n_runs_per_device
                  n_processes_per_device devices_list).
Abbreviation result_from :=
  (expected_result run store_fault self n_runs_per_device
                   n_processes_per_device devices_list).

Lemma configuration_bundle_Some experiment_id simulation_factory epochs entry :
  bundle_of experiment_id (simulation_factory, epochs) = Some entry →
  pools_refused n_processes_per_device devices_list = false ∧
  ∃ all_outputs simulation simulation_identifier,
    gathered_from run n_runs_per_device simulation_factory epochs
                  0 devices_list = Some all_outputs ∧
    simulation_factory 0 cpu = Ok simulation ∧
    construct_simulation_identifier (sim_obj simulation)
    = Ok simulation_identifier ∧
    entry =
      ((simulation_identifier,
        (λ '(simulation_history, used_seed, used_device),
           (handle_simulation_output self simulation_history,
            used_seed, used_device)) <$> all_outputs),
       "./outputs/" +:+ name self +:+ "/experiment_"
                    +:+ pretty experiment_id).
Proof.
  unfold configuration_bundle. cbn [fst snd].
  destruct (pools_refused _ _); [done|].
  destruct (gathered_from _ _ _ _ _ _) as [all_outputs|]; [|done].
  simpl (mbind _ (Some _)).
  destruct (simulation_factory 0 cpu) as [simulation|]; [|done].
  simpl (mbind _ (Ok _)).
  destruct (construct_simulation_identifier _) as [simulation_identifier|]
    eqn:Hidentifier; [|done].
  destruct (store_fault _ _); [done|]. intros [= <-].
  split; [done|]. by exists all_outputs, simulation, simulation_identifier.
Qed.

Lemma expected_saved_lookup experiment_id sweep i entry :
  saved_from experiment_id sweep !! i = Some entry →
  ∃ configuration,
    sweep !! i = Some configuration ∧
    bundle_of (experiment_id + Z.of_nat i) configuration = Some entry.
Proof.
  revert experiment_id i. induction sweep as [|configuration sweep IH];
    intros experiment_id i; [done|].
  cbn [expected_saved].
  destruct (bundle_of experiment_id configuration) as [first|] eqn:Hfirst;
    [|done].
  destruct i as [|i]; simpl.
  - intros [= <-]. exists configuration. by rewrite Z.add_0_r.
  - intros (configuration' & Hlookup & Hbundle)%IH.
    exists configuration'. split; [done|].
    by replace (experiment_id + Z.of_nat (S i))
      with (experiment_id + 1 + Z.of_nat i) by lia.
Qed.

Lemma expected_saved_length experiment_id sweep :
  (length (saved_from experiment_id sweep) ≤ length sweep)%nat.
Proof.
  revert experiment_id. induction sweep as [|configuration sweep IH];
    intros experiment_id; [done|].
  cbn [expected_saved]. destruct (bundle_of _ _); simpl; [|lia].
  specialize (IH (experiment_id + 1)). lia.
Qed.

Lemma expected_result_Ok experiment_id sweep n :
  result_from experiment_id sweep (Ok n) →
  length (saved_from experiment_id sweep) = length sweep.
Proof.
  revert experiment_id. induction sweep as [|configuration sweep IH];
    intros experiment_id; [done|].
  cbn [expected_result expected_saved]. destruct (bundle_of _ _); simpl.
  - intros Hrest%IH. by rewrite Hrest.
  - by intros (e & [=] & _).
Qed.

Lemma expected_result_Raise experiment_id sweep e :
  result_from experiment_id sweep (Raise e) →
  ∃ configuration,
    sweep !! length (saved_from experiment_id sweep) = Some configuration ∧
    bundle_of (experiment_id
               + Z.of_nat (length (saved_from experiment_id sweep)))
              configuration = None ∧
    raised_by run n_runs_per_device n_processes_per_device devices_list
              configuration e.
Proof.
  revert experiment_id. induction sweep as [|configuration sweep IH];
    intros experiment_id; [done|].
  cbn [expected_result expected_saved].
  destruct (bundle_of experiment_id configuration) as [first|] eqn:Hfirst.
  - intros (configuration' & Hlookup & Hbundle & Hraised)%IH.
    exists configuration'. simpl length. split_and!; [done| |done].
    by replace (experiment_id
                + Z.of_nat (S (length (saved_from (experiment_id + 1) sweep))))
      with (experiment_id + 1
            + Z.of_nat (length (saved_from (experiment_id + 1) sweep)))
      by lia.
  - intros (e' & [= <-] & Hraised). exists configuration.
    simpl. rewrite Z.add_0_r. by split_and!.
Qed.

Lemma configuration_pools_length configuration :
  pools_refused n_processes_per_device devices_list = false →
  length (pools_of configuration) = length devices_list.
Proof.
  intros Hallowed. unfold configuration_pools. rewrite Hallowed.
  apply settled_from_length.
Qed.

Lemma expected_pools_at experiment_id sweep c p configuration :
  pools_refused n_processes_per_device devices_list = false →
  sweep !! c = Some configuration →
  (c ≤ length (saved_from experiment_id sweep))%nat →
  (p < length devices_list)%nat →
  pools_from experiment_id sweep !! (c * length devices_list + p)%nat =
  settled_from run n_runs_per_device n_processes_per_device
               configuration.1 configuration.2 0 devices_list !! p.
Proof.
  intros Hallowed. revert experiment_id c.
  induction sweep as [|first sweep IH]; intros experiment_id c Hc Hsaved Hp;
    [done|].
  cbn [expected_pools expected_saved] in *.
  pose proof (configuration_pools_length first Hallowed) as Hlen.
  destruct c as [|c].
  - injection Hc as ->. rewrite lookup_app_l by lia.
    unfold configuration_pools. by rewrite Hallowed.
  - rewrite lookup_app_r by (rewrite Hlen; lia). rewrite Hlen.
    replace (S c * length devices_list + p - length devices_list)%nat
      with (c * length devices_list + p)%nat by lia.
    destruct (bundle_of experiment_id first); [|simpl in Hsaved; lia].
    apply IH; [done| |done]. simpl in Hsaved. lia.
Qed.

Lemma expected_pools_elem experiment_id sweep q :
  q ∈ pools_from experiment_id sweep →
  ∃ configuration p,
    configuration ∈ sweep ∧
    settled_from run n_runs_per_device n_processes_per_device
                 configuration.1 configuration.2 0 devices_list !! p = Some q.
Proof.
  revert experiment_id. induction sweep as [|first sweep IH];
    intros experiment_id; [by intros ?%elem_of_nil|].
  cbn [expected_pools]. intros [Hq|Hq]%elem_of_app.
  - unfold configuration_pools in Hq.
    destruct (pools_refused _ _); [by apply elem_of_nil in Hq|].
    apply list_elem_of_lookup in Hq as [position Hposition].
    exists first, position. split; [left | done].
  - destruct (bundle_of experiment_id first); [|by apply elem_of_nil in Hq].
    destruct (IH _ Hq) as (configuration & position & Hin & Hposition).
    exists configuration, position. split; [by right | done].
Qed.

Lemma expected_pools_length experiment_id sweep :
  pools_refused n_processes_per_device devices_list = false →
  length (pools_from experiment_id sweep) =
  (length sweep `min` S (length (saved_from experiment_id sweep))
   * length devices_list)%nat.
Proof.
  intros Hallowed. revert experiment_id.
  induction sweep as [|first sweep IH]; intros experiment_id; [done|].
  cbn [expected_pools expected_saved].
  rewrite length_app, (configuration_pools_length first Hallowed).
  destruct (bundle_of experiment_id first).
  - rewrite IH. simpl length. lia.
  - simpl. lia.
Qed.

(** [full_run] leaves the pools and the bundles the sweep predicts. *)
Lemma full_run_spec epochs_per_simulation (w w' : @world History) r :
  full_run run store_fault self n_runs_per_device n_processes_per_device
           devices_list epochs_per_simulation w = (w', r) →
  let sweep := zip_cycle (simulation_factories self)
                         (epochs_list epochs_per_simulation) in
  w_pools w' = w_pools w ++ pools_from 0 sweep ∧
  w_saved w' = w_saved w ++ saved_from 0 sweep ∧
  ∃ r0, result_from 0 sweep r0 ∧
        r = match r0 with Ok _ => Ok () | Raise e => Raise e end.
Proof.
  destruct w as [pools saved sched]. unfold full_run. intros Hrun.
  set (sweep := zip_cycle _ _) in *.
  destruct (full_run_loop run store_fault self n_runs_per_device
              n_processes_per_device devices_list sweep 0 pools saved sched)
    as (sched' & r0 & Hloop & Hr0).
  rewrite M_bind_unfold, Hloop in Hrun.
  destruct r0 as [n|e]; injection Hrun as <- <-; simpl; eauto.
Qed.
End sweep_facts.

(** ** Seeds and paths *)

Section seed_facts.
Context {History : Type}.
Variable run : @simulation History → Z → result (@simulation History).
Variable n_runs_per_device : Z.
Variable simulation_factory : @simulation_factory History.
Variable epochs : Z.

Lemma device_args_seeds pool_id device :
  args_seed <$> device_args simulation_factory n_runs_per_device
                            pool_id device epochs =
  seqZ (Z.of_nat pool_id * n_runs_per_device) n_runs_per_device.
Proof.
  unfold device_args, range. rewrite <- list_fmap_compose.
  pose proof (fmap_add_seqZ (Z.of_nat pool_id * n_runs_per_device) 0
                n_runs_per_device) as Hshift.
  rewrite Z.add_0_r in Hshift. by rewrite <- Hshift.
Qed.

Lemma seqZ_blocks (m n : Z) (k : nat) :
  0 ≤ n → seqZ m n ++ seqZ (m + n) (n * Z.of_nat k) = seqZ m (n * Z.of_nat (S k)).
Proof.
  intros Hn. replace (n * Z.of_nat (S k)) with (n + n * Z.of_nat k) by lia.
  rewrite seqZ_app; [done|lia|]. apply Z.mul_nonneg_nonneg; lia.
Qed.

Lemma device_args_seeds_concat pool_id devices :
  concat (imap (λ p device,
                  args_seed <$> device_args simulation_factory
                                  n_runs_per_device (pool_id + p)%nat
                                  device epochs) devices) =
  seqZ (Z.of_nat pool_id * n_runs_per_device)
       (n_runs_per_device * Z.of_nat (length devices)).
Proof.
  destruct (decide (n_runs_per_device ≤ 0)) as [Hneg|Hpos].
  { rewrite (seqZ_nil _ (_ * _)) by (apply Z.mul_nonpos_nonneg; lia).
    clear -Hneg. revert pool_id.
    induction devices as [|device devices IH]; intros pool_id; [done|].
    rewrite imap_cons. cbn [concat].
    rewrite device_args_seeds, seqZ_nil by done. simpl.
    rewrite <- (IH (S pool_id)). f_equal. apply imap_ext. intros p d _. simpl.
    by replace (pool_id + S p)%nat with (S pool_id + p)%nat by lia. }
  revert pool_id. induction devices as [|device devices IH]; intros pool_id.
  { simpl. by rewrite Z.mul_0_r. }
  rewrite imap_cons. cbn [concat length].
  rewrite Nat.add_0_r, device_args_seeds.
  rewrite <- seqZ_blocks by lia. f_equal.
  replace (Z.of_nat pool_id * n_runs_per_device + n_runs_per_device)
    with (Z.of_nat (S pool_id) * n_runs_per_device) by lia.
  rewrite <- IH. f_equal. apply imap_ext. intros p d _. simpl.
  by replace (pool_id + S p)%nat with (S pool_id + p)%nat by lia.
Qed.

Lemma _job_seed args r :
  _job run args = Ok r → result_seed r = args_seed args.
Proof.
  destruct args as [[[f seed] device] e]. unfold _job.
  destruct (f seed device) as [s0|]; [|done]. simpl.
  destruct (run _ e) as [s1|]; [|done]. simpl. by intros [= <-].
Qed.

Lemma batch_outputs_seeds args outputs :
  batch_outputs run args = Some outputs →
  result_seed <$> outputs = args_seed <$> args.
Proof.
  intros Hbatch%batch_outputs_Some.
  induction Hbatch as [|a r args outputs Hjob _ IH]; [done|].
  rewrite !fmap_cons. by rewrite IH, (_job_seed a r).
Qed.

Lemma batch_outputs_elem args outputs a :
  batch_outputs run args = Some outputs → a ∈ args → is_ok (_job run a) = true.
Proof.
  intros Hbatch%batch_outputs_Some [i Hi]%list_elem_of_lookup.
  destruct (Forall2_lookup_l _ _ _ _ _ Hbatch Hi) as (r & _ & ->). done.
Qed.

Lemma gathered_from_seeds pool_id devices outputs :
  gathered_from run n_runs_per_device simulation_factory epochs
                pool_id devices = Some outputs →
  result_seed <$> outputs =
  seqZ (Z.of_nat pool_id * n_runs_per_device)
       (n_runs_per_device * Z.of_nat (length devices)).
Proof.
  rewrite <- device_args_seeds_concat. revert pool_id outputs.
  induction devices as [|device devices IH]; intros pool_id outputs.
  { by intros [= <-]. }
  cbn [gathered_from].
  destruct (batch_outputs run _) as [first|] eqn:Hbatch; [|done].
  simpl. destruct (gathered_from _ _ _ _ _ _) as [rest|] eqn:Hrest; [|done].
  intros [= <-]. rewrite fmap_app.
  rewrite Nat.add_0_r, (batch_outputs_seeds _ _ Hbatch). f_equal.
  rewrite (IH _ _ Hrest). f_equal. apply imap_ext. intros p d _. simpl.
  by replace (pool_id + S p)%nat with (S pool_id + p)%nat by lia.
Qed.
End seed_facts.

Lemma experiment_path_inj (experiment_name : string) (i j : Z) :
  "./outputs/" +:+ experiment_name +:+ "/experiment_" +:+ pretty i =
  "./outputs/" +:+ experiment_name +:+ "/experiment_" +:+ pretty j →
  i = j.
Proof.
  intros Hpath. apply (inj (String.app "./outputs/")) in Hpath.
  apply (inj (String.app experiment_name)) in Hpath.
  apply (inj (String.app "/experiment_")) in Hpath.
  by apply (inj pretty) in Hpath.
Qed.

(** ** [full_run] as a whole *)

Section full_run_theorems.
Context {History : Type}.
Variable run : @simulation History → Z → result (@simulation History).
Variable store_fault : @bundle History → string → option exn.
Variable self : @Experiment History.
Variables n_runs_per_device n_processes_per_device : Z.
Variable devices_list : list torch_device.

Lemma processes_allowed :
  1 ≤ n_processes_per_device →
  pools_refused n_processes_per_device devices_list = false.
Proof.
  intros Hprocesses. unfold pools_refused.
  by rewrite (proj2 (Z.ltb_ge _ _) Hprocesses).
Qed.

Lemma full_run_saved_count epochs_per_simulation (w w' : @world History) r :
  full_run run store_fault self n_runs_per_device n_processes_per_device
           devices_list epochs_per_simulation w = (w', r) →
  let sweep := zip_cycle (simulation_factories self)
                         (epochs_list epochs_per_simulation) in
  let persisted := expected_saved run store_fault self n_runs_per_device
                     n_processes_per_device devices_list 0 sweep in
  (r = Ok () ↔ length persisted = length sweep) ∧
  (∀ e, r = Raise e →
     ∃ configuration,
       sweep !! length persisted = Some configuration ∧
       configuration_bundle run store_fault self n_runs_per_device
         n_processes_per_device devices_list
         (Z.of_nat (length persisted)) configuration = None ∧
       raised_by run n_runs_per_device n_processes_per_device devices_list
                 configuration e).
Proof.
  intros (_ & _ & r0 & Hr0 & ->)%full_run_spec sweep persisted.
  destruct r0 as [n|e0].
  - apply expected_result_Ok in Hr0. split; [done|]. by intros e [=].
  - apply expected_result_Raise in Hr0
      as (configuration & Hlookup & Hbundle & Hraised).
    split.
    + split; [done|]. intros Hlen. subst persisted sweep.
      apply lookup_lt_Some in Hlookup. lia.
    + intros e [= <-]. exists configuration. by rewrite Z.add_0_l in Hbundle.
Qed.

Lemma full_run_persists_in_order_paths epochs_per_simulation
    (w w' : @world History) r :
  full_run run store_fault self n_runs_per_device n_processes_per_device
           devices_list epochs_per_simulation w = (w', r) →
  ∀ i entry,
    expected_saved run store_fault self n_runs_per_device
      n_processes_per_device devices_list 0
      (zip_cycle (simulation_factories self)
                 (epochs_list epochs_per_simulation)) !! i = Some entry →
    entry.2 = "./outputs/" +:+ name self +:+ "/experiment_"
                           +:+ pretty (Z.of_nat i).
Proof.
  intros _ i entry ([f e] & Hlookup & Hbundle)%expected_saved_lookup.
  by apply configuration_bundle_Some in Hbundle
    as (_ & outputs & simulation & identifier & _ & _ & _ & ->).
Qed.

(** X1: [full_run] leaves the bundles that were on record untouched and
    adds one [save_to_disk] call per configuration it completes, in the
    order of the sweep: the call at position [i] is for the configuration
    at position [i], at the path
    ["./outputs/<name>/experiment_<i>"], with the identifier of the
    simulation the factory builds for seed 0 on the cpu.  The paths are
    pairwise distinct, and the run returns normally exactly when every
    configuration of the sweep got its bundle. *)
Theorem full_run_persists_in_order epochs_per_simulation
    (w w' : @world History) r :
  full_run run store_fault self n_runs_per_device n_processes_per_device
           devices_list epochs_per_simulation w = (w', r) →
  let sweep := zip_cycle (simulation_factories self)
                         (epochs_list epochs_per_simulation) in
  ∃ persisted,
    w_saved w' = w_saved w ++ persisted ∧
    (length persisted ≤ length sweep)%nat ∧
    (r = Ok () ↔ length persisted = length sweep) ∧
    (∀ i entry, persisted !! i = Some entry →
       entry.2 = "./outputs/" +:+ name self +:+ "/experiment_"
                              +:+ pretty (Z.of_nat i) ∧
       ∃ simulation_factory epochs simulation,
         sweep !! i = Some (simulation_factory, epochs) ∧
         simulation_factory 0 cpu = Ok simulation ∧
         construct_simulation_identifier (sim_obj simulation)
         = Ok entry.1.1) ∧
    NoDup persisted.*2.
Proof.
  intros Hrun sweep.
  destruct (full_run_saved_count _ _ _ _ Hrun) as [Hok _].
  apply full_run_spec in Hrun as (_ & Hsaved & _).
  fold sweep in Hsaved, Hok.
  set (persisted := expected_saved _ _ _ _ _ _ _ _) in *.
  assert (∀ i entry, persisted !! i = Some entry →
            entry.2 = "./outputs/" +:+ name self +:+ "/experiment_"
                                   +:+ pretty (Z.of_nat i) ∧
            ∃ simulation_factory epochs simulation,
              sweep !! i = Some (simulation_factory, epochs) ∧
              simulation_factory 0 cpu = Ok simulation ∧
              construct_simulation_identifier (sim_obj simulation)
              = Ok entry.1.1) as Hentries.
  { intros i entry ([f e] & Hlookup & Hbundle)%expected_saved_lookup.
    apply configuration_bundle_Some in Hbundle
      as (_ & outputs & simulation & identifier & _ & Hbuild & Hid & ->).
    rewrite Z.add_0_l. split; [done|]. by exists f, e, simulation. }
  exists persisted. split_and!; [done|apply expected_saved_length|done|done|].
  apply NoDup_alt. intros i j path Hi Hj.
  apply list_lookup_fmap_Some in Hi as (entry1 & -> & Hi).
  apply list_lookup_fmap_Some in Hj as (entry2 & Hpath & Hj).
  destruct (Hentries _ _ Hi) as [Hpath1 _].
  destruct (Hentries _ _ Hj) as [Hpath2 _].
  assert (Z.of_nat i = Z.of_nat j); [|lia].
  apply (experiment_path_inj (name self)).
  etrans; [symmetry; exact Hpath1|]. etrans; [exact Hpath | exact Hpath2].
Qed.

(** X2: the result list of every bundle [full_run] persists is the
    concatenation, in the order of [devices_list], of the results of each
    device's jobs in the order they were submitted, with the output handler
    applied to each history; the seeds of the list count up from 0 to
    [n_runs_per_device * len(devices_list) - 1].  This holds for every
    completion order of the workers. *)
Theorem full_run_results_in_submission_order epochs_per_simulation
    (w w' : @world History) r i entry :
  full_run run store_fault self n_runs_per_device n_processes_per_device
           devices_list epochs_per_simulation w = (w', r) →
  w_saved w' !! (length (w_saved w) + i)%nat = Some entry →
  ∃ simulation_factory epochs all_outputs,
    zip_cycle (simulation_factories self)
              (epochs_list epochs_per_simulation) !! i
    = Some (simulation_factory, epochs) ∧
    entry.1.2 =
      (λ '(simulation_history, used_seed, used_device),
         (handle_simulation_output self simulation_history,
          used_seed, used_device)) <$> all_outputs ∧
    Ok <$> all_outputs =
      concat (imap (λ pool_id device,
                      _job run <$> device_args simulation_factory
                                     n_runs_per_device pool_id device epochs)
                   devices_list) ∧
    result_seed <$> (entry.1.2 : list job_result) =
      range (n_runs_per_device * Z.of_nat (length devices_list)).
Proof.
  intros (_ & Hsaved & _)%full_run_spec Hentry.
  rewrite Hsaved, lookup_app_length_add in Hentry.
  apply expected_saved_lookup in Hentry as ([f e] & Hlookup & Hbundle).
  apply configuration_bundle_Some in Hbundle
    as (_ & outputs & simulation & identifier & Hgathered & _ & _ & ->).
  exists f, e, outputs. split_and!; [done..| |].
  - by apply gathered_from_Some in Hgathered as [_ ?].
  - cbn [fst snd]. rewrite <- list_fmap_compose.
    etrans; [|exact (gathered_from_seeds run n_runs_per_device f e 0%nat
                       devices_list outputs Hgathered)].
    apply list_fmap_ext. by intros _ [[h s] d] _.
Qed.

(** X3: in every configuration that [full_run] starts, the pool of the
    device at position [p] of [devices_list] is handed one batch of jobs,
    those of the seeds [p * n_runs_per_device + i] for [i] in
    [range(n_runs_per_device)], all for that device and the configuration's
    epoch count; over the devices the seeds are exactly
    [0 .. n_runs_per_device * len(devices_list) - 1]. *)
Theorem full_run_assigns_seeds epochs_per_simulation
    (w w' : @world History) r c simulation_factory epochs p device :
  full_run run store_fault self n_runs_per_device n_processes_per_device
           devices_list epochs_per_simulation w = (w', r) →
  1 ≤ n_processes_per_device →
  zip_cycle (simulation_factories self)
            (epochs_list epochs_per_simulation) !! c
  = Some (simulation_factory, epochs) →
  devices_list !! p = Some device →
  r = Ok () ∨ (c ≤ length (w_saved w') - length (w_saved w))%nat →
  (∃ q,
     w_pools w' !! (length (w_pools w) + (c * length devices_list + p))%nat
     = Some q ∧
     pool_processes q = n_processes_per_device ∧
     pool_tasks q =
       [(λ i, (simulation_factory,
               Z.of_nat p * n_runs_per_device + i, device, epochs))
        <$> range n_runs_per_device]) ∧
  concat (imap (λ pool_id device,
                  args_seed <$> device_args simulation_factory
                                  n_runs_per_device pool_id device epochs)
               devices_list)
  = range (n_runs_per_device * Z.of_nat (length devices_list)).
Proof.
  intros Hrun Hprocesses Hconfiguration Hdevice Hreached.
  pose proof (full_run_saved_count _ _ _ _ Hrun) as [Hok _].
  apply full_run_spec in Hrun as (Hpools & Hsaved & _).
  set (sweep := zip_cycle _ _) in *.
  assert (c ≤ length (expected_saved run store_fault self n_runs_per_device
                        n_processes_per_device devices_list 0 sweep))%nat
    as Hc.
  { destruct Hreached as [Hr|Hc].
    - rewrite (proj1 Hok Hr). apply lookup_lt_Some in Hconfiguration. lia.
    - rewrite Hsaved, length_app in Hc. lia. }
  split; [|apply (device_args_seeds_concat n_runs_per_device
                    simulation_factory epochs 0)].
  rewrite Hpools, lookup_app_length_add.
  apply lookup_lt_Some in Hdevice as Hp.
  rewrite (expected_pools_at _ _ _ _ _ _ _ _ c p (simulation_factory, epochs))
    by (done || by apply processes_allowed).
  cbn [fst snd].
  destruct (lookup_lt_is_Some_2
              (settled_from run n_runs_per_device n_processes_per_device
                            simulation_factory epochs 0 devices_list) p)
    as [q Hq]; [by rewrite settled_from_length|].
  exists q. split; [done|].
  apply settled_from_lookup in Hq as (device' & Hdevice' & Hq).
  rewrite Hdevice in Hdevice'. injection Hdevice' as <-.
  by destruct Hq as [[-> _]|[-> _]].
Qed.

Lemma persisted_configuration_gathers sweep c :
  (c < length (expected_saved run store_fault self n_runs_per_device
                 n_processes_per_device devices_list 0 sweep))%nat →
  ∃ simulation_factory epochs all_outputs,
    sweep !! c = Some (simulation_factory, epochs) ∧
    pools_refused n_processes_per_device devices_list = false ∧
    gathered_from run n_runs_per_device simulation_factory epochs
                  0 devices_list = Some all_outputs.
Proof.
  intros [entry Hentry]%lookup_lt_is_Some_2.
  apply expected_saved_lookup in Hentry as ([f e] & Hlookup & Hbundle).
  apply configuration_bundle_Some in Hbundle
    as (Hallowed & outputs & _ & _ & Hgathered & _).
  by exists f, e, outputs.
Qed.

Lemma gathered_settles_finished simulation_factory epochs all_outputs p q :
  gathered_from run n_runs_per_device simulation_factory epochs
                0 devices_list = Some all_outputs →
  settled_from run n_runs_per_device n_processes_per_device
               simulation_factory epochs 0 devices_list !! p = Some q →
  pool_retrieved q = true ∧ pool_status q = CLOSE ∧ pool_joined q = true.
Proof.
  intros [Hall _]%gathered_from_Some (device & Hdevice & Hq)%settled_from_lookup.
  destruct Hq as [[-> _]|(_ & p' & device' & _ & Hdevice' & Hnone)]; [done|].
  destruct (Hall _ _ Hdevice') as [? Hsome]. congruence.
Qed.

(** X4: whatever way [full_run] ends, the pools that existed before are
    left as they were, every pool it created was handed exactly one batch
    of jobs, and every pool whose results it retrieved is closed and
    joined.  All the pools of a configuration whose bundle was persisted
    are closed and joined, and after a normal return so is every pool the
    run created. *)
Theorem full_run_closes_collected_pools epochs_per_simulation
    (w w' : @world History) r :
  full_run run store_fault self n_runs_per_device n_processes_per_device
           devices_list epochs_per_simulation w = (w', r) →
  ∃ created,
    w_pools w' = w_pools w ++ created ∧
    (∀ q, q ∈ created →
       length (pool_tasks q) = 1%nat ∧
       (pool_retrieved q = true →
        pool_status q = CLOSE ∧ pool_joined q = true)) ∧
    (∀ c p,
       (c < length (w_saved w') - length (w_saved w))%nat →
       (p < length devices_list)%nat →
       ∃ q, created !! (c * length devices_list + p)%nat = Some q ∧
            pool_retrieved q = true ∧ pool_status q = CLOSE ∧
            pool_joined q = true) ∧
    (r = Ok () →
     ∀ q, q ∈ created →
       pool_retrieved q = true ∧ pool_status q = CLOSE ∧ pool_joined q = true).
Proof.
  intros Hrun.
  pose proof (full_run_saved_count _ _ _ _ Hrun) as [Hok _].
  apply full_run_spec in Hrun as (Hpools & Hsaved & _).
  set (sweep := zip_cycle _ _) in *.
  eexists. split_and!; [exact Hpools| | |].
  - intros q (configuration & p & _ & Hq)%expected_pools_elem.
    apply settled_from_lookup in Hq as (device & _ & [[-> _]|[-> _]]); done.
  - intros c p Hc Hp. rewrite Hsaved, length_app in Hc.
    destruct (persisted_configuration_gathers sweep c)
      as (f & e & outputs & Hlookup & Hallowed & Hgathered); [lia|].
    rewrite (expected_pools_at _ _ _ _ _ _ _ _ c p (f, e))
      by (done || lia).
    cbn [fst snd].
    destruct (lookup_lt_is_Some_2
                (settled_from run n_runs_per_device n_processes_per_device
                              f e 0 devices_list) p)
      as [q Hq]; [by rewrite settled_from_length|].
    exists q. split; [done|]. by eapply gathered_settles_finished.
  - intros Hr%Hok q (configuration & p & Hin & Hq)%expected_pools_elem.
    apply list_elem_of_lookup in Hin as [c Hc].
    destruct (persisted_configuration_gathers sweep c)
      as (f & e & outputs & Hlookup & _ & Hgathered).
    { rewrite Hr. by apply lookup_lt_Some in Hc. }
    rewrite Hc in Hlookup. injection Hlookup as ->.
    by eapply gathered_settles_finished.
Qed.

(** X5: when a job of the configuration at position [c] raises,
    [full_run] raises, the bundles on record stay, at most the [c]
    configurations before it get a bundle and none is written at the path
    of configuration [c].  If the run got as far as that configuration, the
    exception it raises is the one a job of the first device with a
    failing job raised; the pools of the devices before that one are
    closed and joined, and the pool of that device still runs, its one
    batch never retrieved. *)
Theorem full_run_worker_failure epochs_per_simulation
    (w w' : @world History) r c simulation_factory epochs p device args e0 :
  full_run run store_fault self n_runs_per_device n_processes_per_device
           devices_list epochs_per_simulation w = (w', r) →
  zip_cycle (simulation_factories self)
            (epochs_list epochs_per_simulation) !! c
  = Some (simulation_factory, epochs) →
  devices_list !! p = Some device →
  args ∈ device_args simulation_factory n_runs_per_device p device epochs →
  _job run args = Raise e0 →
  ∃ persisted e,
    r = Raise e ∧
    w_saved w' = w_saved w ++ persisted ∧
    (length persisted ≤ c)%nat ∧
    (∀ entry, entry ∈ persisted →
       entry.2 ≠ "./outputs/" +:+ name self +:+ "/experiment_"
                              +:+ pretty (Z.of_nat c)) ∧
    (length persisted = c → 1 ≤ n_processes_per_device →
     ∃ p' device' args',
       (p' ≤ p)%nat ∧ devices_list !! p' = Some device' ∧
       args' ∈ device_args simulation_factory n_runs_per_device
                           p' device' epochs ∧
       _job run args' = Raise e ∧
       w_pools w' !! (length (w_pools w) + (c * length devices_list + p'))%nat
       = Some (busy_pool n_processes_per_device
                 (device_args simulation_factory n_runs_per_device
                              p' device' epochs)) ∧
       ∀ p'' device'', (p'' < p')%nat → devices_list !! p'' = Some device'' →
         w_pools w' !! (length (w_pools w)
                        + (c * length devices_list + p''))%nat
         = Some (finished_pool n_processes_per_device
                   (device_args simulation_factory n_runs_per_device
                                p'' device'' epochs))).
Proof.
  intros Hrun Hconfiguration Hdevice Hargs Hraise.
  pose proof (full_run_saved_count _ _ _ _ Hrun) as [Hok Herr].
  pose proof (full_run_persists_in_order_paths _ _ _ _ Hrun) as Hpaths.
  apply full_run_spec in Hrun as (Hpools & Hsaved & _).
  set (sweep := zip_cycle _ _) in *.
  set (persisted := expected_saved _ _ _ _ _ _ _ _) in *.
  assert (batch_outputs run
            (device_args simulation_factory n_runs_per_device p device epochs)
          = None) as Hbatch.
  { destruct (batch_outputs run _) as [outputs|] eqn:Hbatch; [|done].
    pose proof (batch_outputs_elem run _ _ _ Hbatch Hargs) as Hfine.
    by rewrite Hraise in Hfine. }
  pose proof (gathered_from_fails run n_runs_per_device simulation_factory
                epochs 0 devices_list p device Hdevice Hbatch) as Hnone.
  assert (length persisted ≤ c)%nat as Hc.
  { apply Nat.nlt_ge. intros Hlt.
    destruct (persisted_configuration_gathers sweep c Hlt)
      as (f & e & outputs & Hlookup & _ & Hgathered).
    rewrite Hconfiguration in Hlookup. injection Hlookup as <- <-.
    congruence. }
  destruct r as [[]|e].
  { apply lookup_lt_Some in Hconfiguration. pose proof (proj1 Hok eq_refl).
    lia. }
  exists persisted, e. split_and!; [done..| |].
  - intros entry [i Hi]%list_elem_of_lookup Hpath.
    rewrite (Hpaths i entry Hi) in Hpath.
    apply experiment_path_inj in Hpath. apply lookup_lt_Some in Hi. lia.
  - intros Hreached Hprocesses%processes_allowed.
    destruct (Herr e eq_refl) as (configuration & Hlookup & _ & Hraised).
    fold persisted in Hlookup. rewrite Hreached, Hconfiguration in Hlookup.
    injection Hlookup as <-.
    destruct (Hraised Hprocesses Hnone) as (args' & Hculprit & Hjob).
    destruct (gathered_from_None run n_runs_per_device simulation_factory
                epochs 0 devices_list Hnone)
      as (p' & device' & Hdevice' & Hfail & Hbefore & Hculprits).
    cbn [fst snd] in Hculprit. rewrite Hculprits in Hculprit.
    assert (p' ≤ p)%nat as Hp'.
    { apply Nat.nlt_ge. intros Hlt.
      destruct (Hbefore p device Hlt Hdevice) as [? Hsome].
      simpl in Hsome. congruence. }
    exists p', device', args'. split_and!; [done..| |].
    + rewrite Hpools, lookup_app_length_add.
      rewrite (expected_pools_at _ _ _ _ _ _ _ _ c p'
                 (simulation_factory, epochs));
        [|done|done|fold persisted; lia|by apply lookup_lt_Some in Hdevice'].
      cbn [fst snd].
      destruct (lookup_lt_is_Some_2
                  (settled_from run n_runs_per_device n_processes_per_device
                                simulation_factory epochs 0 devices_list) p')
        as [q Hq];
        [rewrite settled_from_length; by apply lookup_lt_Some in Hdevice'|].
      rewrite Hq. apply settled_from_lookup in Hq as (d & Hd & Hq).
      rewrite Hdevice' in Hd. injection Hd as <-.
      destruct Hq as [[_ Hall]|[-> _]]; [|done].
      destruct (Hall p' device' (Nat.le_refl _) Hdevice') as [? Hsome].
      congruence.
    + intros p'' device'' Hlt Hdevice''.
      rewrite Hpools, lookup_app_length_add.
      rewrite (expected_pools_at _ _ _ _ _ _ _ _ c p''
                 (simulation_factory, epochs));
        [|done|done|fold persisted; lia|by apply lookup_lt_Some in Hdevice''].
      cbn [fst snd].
      destruct (lookup_lt_is_Some_2
                  (settled_from run n_runs_per_device n_processes_per_device
                                simulation_factory epochs 0 devices_list) p'')
        as [q Hq];
        [rewrite settled_from_length; by apply lookup_lt_Some in Hdevice''|].
      rewrite Hq. apply settled_from_lookup in Hq as (d & Hd & Hq).
      rewrite Hdevice'' in Hd. injection Hd as <-.
      destruct Hq as [[-> _]|(_ & p3 & device3 & Hp3 & Hdevice3 & Hnone3)];
        [done|].
      destruct (Hbefore p3 device3 ltac:(lia) Hdevice3) as [? Hsome].
      congruence.
Qed.

(** X6: with fewer than one process per device, a device to create a pool
    for and a configuration to run, [full_run] raises the [ValueError] of
    the first [Pool] call and leaves the world as it found it: no pool, no
    job, no bundle. *)
Theorem full_run_refuses_zero_processes epochs_per_simulation
    (w : @world History) :
  n_processes_per_device < 1 →
  devices_list ≠ [] →
  zip_cycle (simulation_factories self)
            (epochs_list epochs_per_simulation) ≠ [] →
  full_run run store_fault self n_runs_per_device n_processes_per_device
           devices_list epochs_per_simulation w =
  (w, Raise (ValueError "Number of processes must be at least 1")).
Proof.
  intros Hprocesses Hdevices Hsweep. unfold full_run.
  destruct (zip_cycle _ _) as [|[f e] sweep]; [done|].
  destruct devices_list as [|device devices]; [done|].
  apply M_bind_Raise. cbn [mfold]. apply M_bind_Raise.
  unfold run_configuration. apply M_bind_Raise.
  apply create_pools_refused. by apply Z.ltb_lt.
Qed.

(** X7: the pools and the bundles [full_run] leaves behind, and whether it
    returns or raises, do not depend on the order in which the workers
    complete their jobs. *)
Theorem full_run_independent_of_schedule epochs_per_simulation
    (pools : list (@pool History)) (saved : list (@bundle History * string))
    (sched1 sched2 : list nat) (w1 w2 : @world History) r1 r2 :
  full_run run store_fault self n_runs_per_device n_processes_per_device
           devices_list epochs_per_simulation
           {| w_pools := pools; w_saved := saved; w_sched := sched1 |}
  = (w1, r1) →
  full_run run store_fault self n_runs_per_device n_processes_per_device
           devices_list epochs_per_simulation
           {| w_pools := pools; w_saved := saved; w_sched := sched2 |}
  = (w2, r2) →
  w_pools w1 = w_pools w2 ∧ w_saved w1 = w_saved w2 ∧
  is_ok r1 = is_ok r2.
Proof.
  intros Hrun1 Hrun2.
  pose proof (full_run_saved_count _ _ _ _ Hrun1) as [Hok1 _].
  pose proof (full_run_saved_count _ _ _ _ Hrun2) as [Hok2 _].
  apply full_run_spec in Hrun1 as (Hpools1 & Hsaved1 & _).
  apply full_run_spec in Hrun2 as (Hpools2 & Hsaved2 & _).
  cbn [w_pools w_saved] in *.
  split_and!; [congruence..|].
  destruct r1 as [[]|e1], r2 as [[]|e2]; simpl; try done.
  - pose proof (proj2 Hok2 (proj1 Hok1 eq_refl)). done.
  - pose proof (proj2 Hok1 (proj1 Hok2 eq_refl)). done.
Qed.

End full_run_theorems.

Lemma full_run_persists_in_order_witness :
  ∃ persisted,
    w_saved toy_outcome.1 = w_saved shuffled_world ++ persisted ∧
    NoDup persisted.*2.
Proof.
  destruct (full_run_persists_in_order toy_run no_fault toy_experiment 3 2
              [cpu; cuda 0] (EpochsList [5; 2]) shuffled_world
              toy_outcome.1 toy_outcome.2)
    as (persisted & Hsaved & _ & _ & _ & Hpaths).
  - apply surjective_pairing.
  - exists persisted. by split.
Defined.

Lemma full_run_results_in_submission_order_witness :
  match w_saved toy_outcome.1
          !! (length (w_saved shuffled_world) + 1)%nat with
  | Some entry =>
      result_seed <$> (entry.1.2 : list job_result) =
      range (3 * Z.of_nat (length [cpu; cuda 0]))
  | None => False
  end.
Proof.
  destruct (w_saved toy_outcome.1
              !! (length (w_saved shuffled_world) + 1)%nat)
    as [entry|] eqn:Hentry.
  - edestruct (full_run_results_in_submission_order toy_run no_fault
                 toy_experiment 3 2 [cpu; cuda 0] (EpochsList [5; 2])
                 shuffled_world toy_outcome.1 toy_outcome.2 1 entry)
      as (f & e & outputs & _ & _ & _ & Hseeds).
    + apply surjective_pairing.
    + exact Hentry.
    + exact Hseeds.
  - apply lookup_ge_None in Hentry. vm_compute in Hentry. lia.
Defined.

Lemma full_run_assigns_seeds_witness :
  ∃ q,
    w_pools toy_outcome.1
      !! (length (w_pools shuffled_world)
          + (1 * length [cpu; cuda 0] + 1))%nat = Some q ∧
    pool_tasks q =
      [(λ i, (toy_factory 2, Z.of_nat 1 * 3 + i, cuda 0, 2)) <$> range 3].
Proof.
  destruct (full_run_assigns_seeds toy_run no_fault toy_experiment 3 2
              [cpu; cuda 0] (EpochsList [5; 2]) shuffled_world
              toy_outcome.1 toy_outcome.2 1 (toy_factory 2) 2 1 (cuda 0))
    as [(q & Hq & _ & Htasks) _].
  - apply surjective_pairing.
  - lia.
  - reflexivity.
  - reflexivity.
  - left. by vm_compute.
  - exists q. split; [exact Hq | exact Htasks].
Defined.

Lemma full_run_closes_collected_pools_witness :
  ∃ created,
    w_pools flaky_outcome.1 = w_pools shuffled_world ++ created ∧
    ∀ q, q ∈ created →
      pool_retrieved q = true → pool_status q = CLOSE ∧ pool_joined q = true.
Proof.
  destruct (full_run_closes_collected_pools toy_run no_fault flaky_experiment
              3 2 [cpu; cuda 0] (EpochsList [5; 2]) shuffled_world
              flaky_outcome.1 flaky_outcome.2)
    as (created & Hpools & Hcreated & _).
  - apply surjective_pairing.
  - exists created. split; [exact Hpools|].
    intros q Hq. by apply Hcreated.
Defined.

Lemma full_run_worker_failure_witness :
  ∃ persisted e,
    flaky_outcome.2 = Raise e ∧
    w_saved flaky_outcome.1 = w_saved shuffled_world ++ persisted ∧
    (length persisted ≤ 1)%nat.
Proof.
  destruct (full_run_worker_failure toy_run no_fault flaky_experiment
              3 2 [cpu; cuda 0] (EpochsList [5; 2]) shuffled_world
              flaky_outcome.1 flaky_outcome.2 1 flaky_factory 2 0 cpu
              (flaky_factory, 1, cpu, 2) (RuntimeError "seed 1"))
    as (persisted & e & Hr & Hsaved & Hcount & _).
  - apply surjective_pairing.
  - reflexivity.
  - reflexivity.
  - right. left.
  - reflexivity.
  - exists persisted, e. split_and!; [exact Hr | exact Hsaved | exact Hcount].
Defined.

Lemma full_run_refuses_zero_processes_witness :
  full_run toy_run no_fault toy_experiment 3 0 [cpu; cuda 0]
           (EpochsList [5; 2]) shuffled_world =
  (shuffled_world,
   Raise (ValueError "Number of processes must be at least 1")).
Proof.
  apply full_run_refuses_zero_processes; [lia|done|done].
Defined.

Lemma full_run_independent_of_schedule_witness :
  w_saved toy_outcome.1 =
  w_saved (full_run toy_run no_fault toy_experiment 3 2 [cpu; cuda 0]
                    (EpochsList [5; 2]) empty_world).1.
Proof.
  refine (proj1 (proj2 (full_run_independent_of_schedule toy_run no_fault
            toy_experiment 3 2 [cpu; cuda 0] (EpochsList [5; 2]) [] []
            [2; 0; 5; 1; 1; 1]%nat [] _ _ toy_outcome.2
            (full_run toy_run no_fault toy_experiment 3 2 [cpu; cuda 0]
                      (EpochsList [5; 2]) empty_world).2 _ _)));
    apply surjective_pairing.
Defined.


(** ** More on the identifier builder *)

Lemma rfold_app {A B} (body : B → A → result B) (acc : B) (xs ys : list A) :
  rfold body acc (xs ++ ys) = (acc' ← rfold body acc xs; rfold body acc' ys).
Proof.
  revert acc. induction xs as [|x xs IH]; intros acc; [done|].
  simpl. destruct (body acc x) as [acc'|e]; simpl; [apply IH | done].
Qed.

Lemma append_identifiers_plain cls identifier :
  is_dataclass cls = false → append_identifiers cls identifier = identifier.
Proof.
  destruct cls as [cls_name decorated annotations bases]. intros Hplain.
  cbn [append_identifiers]. by rewrite Hplain.
Qed.

Lemma append_identifiers_keys cls identifier key :
  key ∈ dict_keys (append_identifiers cls identifier) ↔
  key ∈ dict_keys identifier ∨ key ∈ declared_fields cls.
Proof.
  unfold declared_fields. revert identifier.
  induction cls as [cls_name decorated annotations bases IH]
    using pyclass_bases_ind.
  assert (∀ acc,
            key ∈ dict_keys
                    (foldl (λ identifier base_cls,
                              append_identifiers base_cls identifier)
                           acc bases) ↔
            key ∈ dict_keys acc ∨
            ∃ base, base ∈ bases ∧
                    key ∈ dict_keys (append_identifiers base [])) as Hbases.
  { induction IH as [|base bases Hbase _ IHbases]; intros acc.
    - simpl. split; [by left|]. intros [?|(base & []%elem_of_nil & _)]; done.
    - cbn [foldl]. rewrite IHbases, Hbase. split.
      + intros [[?|?]|(base' & Hin & Hkey)]; [by left| |].
        * right. exists base. split; [left | done].
        * right. exists base'. split; [by right | done].
      + intros [?|(base' & [->|Hin]%elem_of_cons & Hkey)].
        * left. by left.
        * left. by right.
        * right. by exists base'. }
  intros identifier. cbn [append_identifiers].
  destruct (is_dataclass (PyClass cls_name decorated annotations bases)).
  - rewrite !Hbases, !dict_update_keys. simpl dict_keys.
    rewrite elem_of_nil. tauto.
  - simpl. rewrite elem_of_nil. tauto.
Qed.

(** X9: the declared fields of a class hold no name twice; a name is among
    them exactly when the class is a dataclass, by its own decorator or by
    inheritance, and the name is annotated in the class body or is a
    declared field of one of its bases. *)
Theorem declared_fields_of_hierarchy (cls_name : string) (decorated : bool)
    (annotations : pydict string pyval) (bases : list pyclass) (key : string) :
  let cls := PyClass cls_name decorated annotations bases in
  NoDup (declared_fields cls) ∧
  (key ∈ declared_fields cls ↔
   is_dataclass cls = true ∧
   (key ∈ dict_keys annotations ∨
    ∃ base, base ∈ bases ∧ key ∈ declared_fields base)).
Proof.
  intros cls. split.
  { apply append_identifiers_NoDup, NoDup_nil_2. }
  unfold declared_fields at 1. subst cls. cbn [append_identifiers].
  destruct (is_dataclass (PyClass cls_name decorated annotations bases)).
  2:{ simpl. rewrite elem_of_nil. split; [done | by intros [? _]]. }
  assert (∀ acc,
            key ∈ dict_keys
                    (foldl (λ identifier base_cls,
                              append_identifiers base_cls identifier)
                           acc bases) ↔
            key ∈ dict_keys acc ∨
            ∃ base, base ∈ bases ∧ key ∈ declared_fields base) as Hbases.
  { clear. induction bases as [|base bases IH]; intros acc.
    - simpl. split; [by left|]. intros [?|(base & []%elem_of_nil & _)]; done.
    - cbn [foldl]. rewrite IH, append_identifiers_keys. split.
      + intros [[?|?]|(base' & Hin & Hkey)]; [by left| |].
        * right. exists base. split; [left | done].
        * right. exists base'. split; [by right | done].
      + intros [?|(base' & [->|Hin]%elem_of_cons & Hkey)].
        * left. by left.
        * left. by right.
        * right. by exists base'. }
  rewrite Hbases, dict_update_keys. simpl dict_keys. rewrite elem_of_nil.
  tauto.
Qed.

(** X10: for a simulation whose class is not a dataclass
    [construct_simulation_identifier] reads no attribute and returns the
    empty identifier. *)
Theorem identifier_of_plain_class_is_empty (simulation : instance) :
  is_dataclass (inst_class simulation) = false →
  construct_simulation_identifier simulation = Ok ∅.
Proof.
  intros Hplain. unfold construct_simulation_identifier.
  by rewrite append_identifiers_plain.
Qed.

Lemma identifier_of_plain_class_is_empty_witness :
  construct_simulation_identifier
    {| inst_class := PyClass "Plain" false [("x", PObj "<class 'int'>")]
                             [object_cls];
       inst_attrs := {["x" := PInt 1]} |} = Ok ∅.
Proof. by apply identifier_of_plain_class_is_empty. Defined.

(** X11: when the first declared field, in the order of discovery, that
    the instance lacks is [key], [construct_simulation_identifier] raises
    [AttributeError] for [key] and returns no identifier. *)
Theorem identifier_missing_field_raises (simulation : instance)
    (found : list string) (key : string) (rest : list string) :
  declared_fields (inst_class simulation) = found ++ key :: rest →
  (∀ field, field ∈ found → is_Some (inst_attrs simulation !! field)) →
  inst_attrs simulation !! key = None →
  construct_simulation_identifier simulation = Raise (AttributeError key).
Proof.
  unfold declared_fields, construct_simulation_identifier.
  intros Hfields Hfound Hmissing. rewrite Hfields.
  rewrite rfold_app.
  destruct (read_fields_Ok simulation found
              (append_identifiers (inst_class simulation) []))
    as (identifier & -> & _); [|done|].
  { intros field Hin. rewrite Hfields, elem_of_app. by left. }
  simpl. by rewrite read_field_Raise.
Qed.

Lemma identifier_missing_field_raises_witness :
  construct_simulation_identifier
    {| inst_class := Simulation_cls;
       inst_attrs := delete "n_train"
                       (inst_attrs (Simulation_new (PInt 0) (PObj "cpu")
                                                   example_configuration)) |}
  = Raise (AttributeError "n_train").
Proof.
  apply (identifier_missing_field_raises _
           ["seed"; "device"; "model_factory"; "data"] "n_train"
           ["n_valid"; "loss_function"; "batch_size"; "_learning_rate";
            "simulation_name"; "data_factory_kwargs"; "model_factory_kwargs"]).
  - reflexivity.
  - apply Forall_forall. vm_compute.
    repeat (constructor; [by eexists|]). constructor.
  - reflexivity.
Defined.

(** X12: two instances whose classes declare the same field names, in
    whatever order and through whatever hierarchy, and that carry equal
    values in all of these fields, get the same identifier. *)
Theorem identifier_ignores_declaration_order
    (simulation1 simulation2 : instance) :
  (∀ key, key ∈ declared_fields (inst_class simulation1) ↔
          key ∈ declared_fields (inst_class simulation2)) →
  (∀ key, key ∈ declared_fields (inst_class simulation1) →
          is_Some (inst_attrs simulation1 !! key) ∧
          inst_attrs simulation1 !! key = inst_attrs simulation2 !! key) →
  ∃ identifier,
    construct_simulation_identifier simulation1 = Ok identifier ∧
    construct_simulation_identifier simulation2 = Ok identifier.
Proof.
  intros Hsame Hvalues.
  destruct (construct_simulation_identifier_Ok simulation1)
    as (identifier1 & Hrun1 & Hlookup1).
  { intros key Hin. by apply Hvalues. }
  destruct (construct_simulation_identifier_Ok simulation2)
    as (identifier2 & Hrun2 & Hlookup2).
  { intros key Hin%Hsame. destruct (Hvalues key Hin) as [? <-]. done. }
  exists identifier1. split; [done|]. rewrite Hrun2. f_equal.
  apply map_eq. intros key. rewrite Hlookup1, Hlookup2.
  destruct (decide (key = "_learning_rate")); [done|].
  destruct (decide (key = "learning_rate" ∧
                    "_learning_rate" ∈ declared_fields (inst_class simulation1)))
    as [[-> Hlr]|Hnot].
  - rewrite decide_True by (split; [done | by apply Hsame]).
    by destruct (Hvalues "_learning_rate" Hlr) as [_ ->].
  - rewrite decide_False by (intros [? ?%Hsame]; by apply Hnot).
    destruct (decide (key ∈ declared_fields (inst_class simulation1)))
      as [Hin|Hnin].
    + rewrite decide_True by (by apply Hsame).
      by destruct (Hvalues key Hin) as [_ ->].
    + by rewrite decide_False by (by intros ?%Hsame).
Qed.

Lemma identifier_ignores_declaration_order_witness :
  ∃ identifier,
    construct_simulation_identifier
      {| inst_class := PyClass "A" true [("x", PNone); ("y", PNone)] [];
         inst_attrs := {["x" := PInt 1; "y" := PStr "a"]} |} = Ok identifier ∧
    construct_simulation_identifier
      {| inst_class :=
           PyClass "B" true [("y", PNone)]
                   [PyClass "Base" true [("x", PNone)] []];
         inst_attrs := {["x" := PInt 1; "y" := PStr "a"]} |} = Ok identifier.
Proof.
  apply identifier_ignores_declaration_order.
  - intros key. vm_compute declared_fields.
    rewrite !elem_of_cons, !elem_of_nil. tauto.
  - apply Forall_forall. vm_compute declared_fields.
    repeat (constructor; [split; [by eexists | reflexivity]|]). constructor.
Defined.

(** ** More on the epoch policy and on [prototype_run] *)

Section dict_last_binding.
Context {K V : Type} `{EqDecision K}.

Lemma dict_update_app (d other1 other2 : pydict K V) :
  dict_update d (other1 ++ other2) = dict_update (dict_update d other1) other2.
Proof. unfold dict_update. apply foldl_app. Qed.

Lemma dict_update_get_other (d other : pydict K V) (k : K) :
  k ∉ other.*1 → dict_get k (dict_update d other) = dict_get k d.
Proof.
  revert d. induction other as [|[k' v'] other IH]; intros d Hk; [done|].
  rewrite fmap_cons, not_elem_of_cons in Hk. destruct Hk as [Hne Hk].
  rewrite dict_update_cons, IH by done. by apply dict_get_set_ne.
Qed.

Lemma dict_update_last (d before after : pydict K V) (k : K) (v : V) :
  k ∉ after.*1 →
  dict_get k (dict_update d (before ++ (k, v) :: after)) = Some v.
Proof.
  intros Hafter.
  rewrite dict_update_app, dict_update_cons, dict_update_get_other by done.
  apply dict_get_set_eq.
Qed.
End dict_last_binding.

Section prototype_theorems.
Context {History : Type}.
Variable run : @simulation History → Z → result (@simulation History).
Variable store_fault : @bundle History → string → option exn.
Variable self : @Experiment History.

Lemma prototype_loop_Raise seed device sweep results configuration e after
    entries :
  Forall2 (λ configuration entry,
             prototype_entry run self seed device configuration = Ok entry)
          sweep entries →
  prototype_entry run self seed device configuration = Raise e →
  rfold (λ results '(simulation_factory, epochs),
           simulation ← simulation_factory seed device;
           simulation ← run simulation epochs;
           simulation_identifier ←
             construct_simulation_identifier (sim_obj simulation);
           let result :=
             handle_simulation_output self
               (history (sim_executor simulation)) in
           Ok (dict_set simulation_identifier result results))
        results (sweep ++ configuration :: after)
  = Raise e.
Proof.
  intros Hentries Hfails. rewrite rfold_app.
  rewrite (prototype_loop run self seed device sweep entries results Hentries).
  simpl. destruct configuration as [f epochs]. unfold prototype_entry in Hfails.
  destruct (f seed device) as [s0|]; [|simpl in *; congruence]. simpl in *.
  destruct (run s0 epochs) as [s1|]; [|simpl in *; congruence]. simpl in *.
  destruct (construct_simulation_identifier (sim_obj s1));
    simpl in *; congruence.
Qed.

(** X13: [prototype_run] stops at the first configuration of the sweep
    that cannot be built or run or has no identifier: it raises that
    configuration's exception and returns no mapping, whatever the
    configurations after it would do. *)
Theorem prototype_run_raises_first_failure (seed : Z) (device : torch_device)
    (epochs_per_simulation : epochs_arg)
    (before after : list (simulation_factory * Z))
    (configuration : simulation_factory * Z)
    (entries : list (gmap string pyval * History)) (e : exn) :
  zip_cycle (simulation_factories self) (epochs_list epochs_per_simulation)
  = before ++ configuration :: after →
  Forall2 (λ configuration entry,
             prototype_entry run self seed device configuration = Ok entry)
          before entries →
  prototype_entry run self seed device configuration = Raise e →
  prototype_run run self seed device epochs_per_simulation = Raise e.
Proof.
  intros Hsweep Hentries Hfails. unfold prototype_run. rewrite Hsweep.
  by eapply prototype_loop_Raise.
Qed.

(** X14: when several configurations of the sweep have the same
    identifier, the mapping [prototype_run] returns binds that identifier
    to the processed output of the last of them. *)
Theorem prototype_run_keeps_last_output (seed : Z) (device : torch_device)
    (epochs_per_simulation : epochs_arg)
    (before after : list (gmap string pyval * History))
    (identifier : gmap string pyval) (output : History) :
  Forall2 (λ configuration entry,
             prototype_entry run self seed device configuration = Ok entry)
          (zip_cycle (simulation_factories self)
                     (epochs_list epochs_per_simulation))
          (before ++ (identifier, output) :: after) →
  identifier ∉ after.*1 →
  ∃ results,
    prototype_run run self seed device epochs_per_simulation = Ok results ∧
    dict_get identifier results = Some output.
Proof.
  intros Hentries Hlast. eexists. split.
  - by apply prototype_loop.
  - by apply dict_update_last.
Qed.

(** X15: with an empty list of epoch counts nothing is run, however many
    factories the experiment has: [prototype_run] returns the empty
    mapping, and [full_run] returns at once, with no pool created and no
    bundle persisted. *)
Theorem empty_epochs_run_nothing (seed : Z) (device : torch_device)
    (n_runs_per_device n_processes_per_device : Z)
    (devices_list : list torch_device) (w : @world History) :
  prototype_run run self seed device (EpochsList []) = Ok [] ∧
  full_run run store_fault self n_runs_per_device n_processes_per_device
           devices_list (EpochsList []) w = (w, Ok ()).
Proof.
  unfold prototype_run, full_run. simpl epochs_list.
  assert (zip_cycle (simulation_factories self) ([] : list Z) = []) as ->
    by by destruct (simulation_factories self).
  done.
Qed.

(** X16: when there are at least as many epoch counts as factories, each
    factory is paired with the epoch count at its own position and the
    epoch counts beyond the last factory are not used. *)
Theorem surplus_epochs_are_ignored (epochs_per_simulation : list Z) :
  (length (simulation_factories self) ≤ length epochs_per_simulation)%nat →
  zip_cycle (simulation_factories self) epochs_per_simulation =
  zip (simulation_factories self) epochs_per_simulation.
Proof.
  intros Hlen. apply list_eq. intros i.
  rewrite zip_cycle_lookup, lookup_zip_with.
  destruct (simulation_factories self !! i) as [f|] eqn:Hf; [|done].
  apply lookup_lt_Some in Hf. simpl.
  by rewrite Nat.mod_small by lia.
Qed.

End prototype_theorems.

Lemma prototype_run_raises_first_failure_witness :
  prototype_run toy_run flaky_experiment 1 cpu (EpochsList [5; 2]) =
  Raise (RuntimeError "seed 1").
Proof.
  eapply (prototype_run_raises_first_failure toy_run flaky_experiment 1 cpu
            (EpochsList [5; 2]) [(toy_factory 1, 5)] [(toy_factory 3, 5)]
            (flaky_factory, 2)).
  - reflexivity.
  - repeat econstructor.
  - reflexivity.
Defined.

Lemma prototype_run_keeps_last_output_witness :
  ∃ results identifier,
    prototype_run toy_run twin_experiment 3 cpu (EpochsList [5; 2])
    = Ok results ∧
    dict_get identifier results = Some [2].
Proof.
  assert (is_ok (prototype_entry toy_run twin_experiment 3 cpu
                                 (toy_factory 1, 5)) = true) as Hfirst_ok
    by (vm_compute; reflexivity).
  assert (match prototype_entry toy_run twin_experiment 3 cpu
                                (toy_factory 1, 2) with
          | Ok entry => entry.2
          | Raise _ => []
          end = [2]) as Hlast_output
    by (vm_compute; reflexivity).
  destruct (prototype_entry toy_run twin_experiment 3 cpu (toy_factory 1, 5))
    as [first|] eqn:Hfirst; [|discriminate Hfirst_ok].
  destruct (prototype_entry toy_run twin_experiment 3 cpu (toy_factory 1, 2))
    as [[identifier output]|] eqn:Hlast; [|discriminate Hlast_output].
  simpl in Hlast_output. subst output.
  destruct (prototype_run_keeps_last_output toy_run twin_experiment 3 cpu
              (EpochsList [5; 2]) [first] [] identifier [2])
    as (results & Hrun & Hget).
  - repeat constructor; assumption.
  - apply not_elem_of_nil.
  - exists results, identifier. split; [exact Hrun | exact Hget].
Defined.

Lemma surplus_epochs_are_ignored_witness :
  (zip_cycle (simulation_factories twin_experiment) [5; 2; 9]).*2 = [5; 2].
Proof.
  rewrite (surplus_epochs_are_ignored twin_experiment [5; 2; 9]);
    [reflexivity | simpl; lia].
Defined.

(** * The [Simulation] class of [rprml/core/simulation.py]

    The object behind the declared fields: what [__post_init__] builds and
    what the [learning_rate] property does.  The datasets, the model, the
    engines, the executor and the global random state belong to torch and
    ignite and stay opaque; an optimizer is known by the parameters and the
    learning rate it was built with. *)

Module Simulation.
Section simulation_object.
Context {Dataset Model Engine Executor Rng : Type}.

(** [torch.optim.SGD(params, lr, momentum=0, dampening=0, weight_decay=0,
    nesterov=False)] *)
Record SGD := {
  sgd_params : Model;
  sgd_lr : pyval;
  sgd_momentum : Z;
  sgd_dampening : Z;
  sgd_weight_decay : Z;
  sgd_nesterov : bool
}.

Record object := {
  attrs : gmap string pyval;   (* the dataclass fields *)
  train_dataset : option Dataset;
  valid_dataset : option Dataset;
  model : option Model;
  optimizer : option SGD;
  trainer : option Engine;
  evaluator : option Engine;
  executor : option Executor;
  initialized : bool           (* [_Simulation__initialized] *)
}.

(** Computations on the global random state that may raise. *)
Definition Init (A : Type) : Type := Rng → Rng * result A.

Global Instance Init_ret : MRet Init := λ A a rng, (rng, Ok a).

Global Instance Init_bind : MBind Init := λ A B k m rng,
  match m rng with
  | (rng', Ok a) => k a rng'
  | (rng', Raise e) => (rng', Raise e)
  end.

Definition pure {A} (r : result A) : Init A := λ rng, (rng, r).

(** [reset_all_seeds(seed)] of [rprml/utils/random.py] *)
Variable reset_all_seeds : pyval → Rng → Rng.

(** A dataset factory is called with [n_train], [n_valid], [device] and
    the keyword dictionary, and draws from the global random state. *)
Definition dataset_factory : Type :=
  pyval → pyval → pyval → pyval → Init (Dataset * Dataset).

Variables get_mnist_datasets get_cifar10_datasets get_gaussian_datasets
  : dataset_factory.

(** [rprml/data/data.py] *)
Definition dataset_factory_methods : pydict string dataset_factory :=
  [ ("mnist", get_mnist_datasets);
    ("cifar10", get_cifar10_datasets);
    ("gaussian", get_gaussian_datasets) ].

(** Calling the object a field holds: [self.data] with the sizes, the
    device and the keyword dictionary, [self.model_factory] with its
    keyword dictionary. *)
Variable call_data : pyval → dataset_factory.
Variable call_model_factory : pyval → pyval → Init Model.

(** [model.to(device)] *)
Variable model_to : Model → pyval → Model.

(** [torch.optim.SGD] refuses some parameter lists and learning rates. *)
Variable sgd_refuses : Model → pyval → option exn.

Definition new_SGD (params : Model) (lr : pyval) : result SGD :=
  match sgd_refuses params lr with
  | Some e => Raise e
  | None =>
      Ok {| sgd_params := params; sgd_lr := lr; sgd_momentum := 0;
            sgd_dampening := 0; sgd_weight_decay := 0;
            sgd_nesterov := false |}
  end.

Variable _create_supervised_trainer : Engine.
Variable create_supervised_evaluator : Model → pyval → pyval → Engine.
Variable new_Executor : object → Init Executor.

Definition getattr (self : object) (key : string) : result pyval :=
  match attrs self !! key with
  | Some v => Ok v
  | None => Raise (AttributeError key)
  end.

Definition set_attr (key : string) (v : pyval) (self : object) : object :=
  {| attrs := <[key := v]> (attrs self);
     train_dataset := train_dataset self;
     valid_dataset := valid_dataset self;
     model := model self; optimizer := optimizer self;
     trainer := trainer self; evaluator := evaluator self;
     executor := executor self; initialized := initialized self |}.

Definition set_optimizer (o : SGD) (self : object) : object :=
  {| attrs := attrs self;
     train_dataset := train_dataset self;
     valid_dataset := valid_dataset self;
     model := model self; optimizer := Some o;
     trainer := trainer self; evaluator := evaluator self;
     executor := executor self; initialized := initialized self |}.

Definition get_model (self : object) : result Model :=
  match model self with
  | Some m => Ok m
  | None => Raise (AttributeError "model")
  end.

(** The property [learning_rate]: [return self._learning_rate]. *)
Definition learning_rate (self : object) : result pyval :=
  getattr self "_learning_rate".

(** [torch.optim.SGD(self.model.parameters(), self.learning_rate, ...)] *)
Definition fresh_optimizer (self : object) : result SGD :=
  params ← get_model self;
  lr ← learning_rate self;
  new_SGD params lr.

(** The setter of [learning_rate].  The object is mutated in place, so it
    is handed back also when the setter raises. *)
Definition learning_rate_setter (val : pyval) (self : object)
  : object * result () :=
  let self := set_attr "_learning_rate" val self in
  if initialized self then
    match fresh_optimizer self with
    | Ok o => (set_optimizer o self, Ok ())
    | Raise e => (self, Raise e)
    end
  else (self, Ok ()).

(** [if self.<kwargs> is None: self.<kwargs> = {}] *)
Definition default_kwargs_of (key : string) (self : object) : result object :=
  kwargs ← getattr self key;
  Ok (if decide (kwargs = PNone) then set_attr key (PObj "{}") self else self).

(** [dataset_factory = self.data], or the registered factory when [data]
    is a string. *)
Definition resolve_dataset_factory (self : object) : result dataset_factory :=
  data ← getattr self "data";
  match data with
  | PStr key =>
      match dict_get key dataset_factory_methods with
      | Some factory => Ok factory
      | None => Raise (KeyError key)
      end
  | _ => Ok (call_data data)
  end.

(** [reset_all_seeds(seed)] as a step of a computation *)
Definition reset (seed : pyval) : Init () :=
  λ rng, (reset_all_seeds seed rng, Ok ()).

Definition __post_init__ (self : object) : Init object :=
  seed ← pure (getattr self "seed");
  reset seed;;
  self ← pure (default_kwargs_of "data_factory_kwargs" self);
  self ← pure (default_kwargs_of "model_factory_kwargs" self);
  dataset_factory ← pure (resolve_dataset_factory self);
  n_train ← pure (getattr self "n_train");
  n_valid ← pure (getattr self "n_valid");
  device ← pure (getattr self "device");
  data_factory_kwargs ← pure (getattr self "data_factory_kwargs");
  '(train, valid) ← dataset_factory n_train n_valid device
                                    data_factory_kwargs;
  model_factory ← pure (getattr self "model_factory");
  model_factory_kwargs ← pure (getattr self "model_factory_kwargs");
  m ← call_model_factory model_factory model_factory_kwargs;
  device ← pure (getattr self "device");
  let m := model_to m device in
  lr ← pure (getattr self "_learning_rate");
  o ← pure (new_SGD m lr);
  loss_function ← pure (getattr self "loss_function");
  device ← pure (getattr self "device");
  let ev := create_supervised_evaluator m loss_function device in
  seed ← pure (getattr self "seed");
  reset seed;;
  let self :=
    {| attrs := attrs self;
       train_dataset := Some train; valid_dataset := Some valid;
       model := Some m; optimizer := Some o;
       trainer := Some _create_supervised_trainer;
       evaluator := Some ev;
       executor := executor self; initialized := initialized self |} in
  ex ← new_Executor self;
  mret {| attrs := attrs self;
          train_dataset := train_dataset self;
          valid_dataset := valid_dataset self;
          model := model self; optimizer := optimizer self;
          trainer := trainer self; evaluator := evaluator self;
          executor := Some ex; initialized := true |}.

(** The fields as the generated [__init__] stores them. *)
Definition init_fields (seed device : pyval) (c : configuration)
  : gmap string pyval :=
  <["seed" := seed]> $ <["device" := device]> $
  <["model_factory" := model_factory c]> $ <["data" := data c]> $
  <["n_train" := n_train c]> $ <["n_valid" := n_valid c]> $
  <["loss_function" := loss_function c]> $
  <["batch_size" := batch_size c]> $
  <["_learning_rate" := _learning_rate c]> $
  <["simulation_name" := simulation_name c]> $
  <["data_factory_kwargs" := data_factory_kwargs c]> $
  <["model_factory_kwargs" := model_factory_kwargs c]> ∅.

(** [Simulation(seed, device, ...)] *)
Definition new (seed device : pyval) (c : configuration) : Init object :=
  __post_init__ {| attrs := init_fields seed device c;
                   train_dataset := None; valid_dataset := None;
                   model := None; optimizer := None; trainer := None;
                   evaluator := None; executor := None;
                   initialized := false |}.

(** The object as the identifier builder sees it. *)
Definition as_instance (self : object) : instance :=
  {| inst_class := Simulation_cls; inst_attrs := attrs self |}.


(** What [Simulation(seed, device, ...)] amounts to, with the values of
    the fields in place of the attribute reads. *)
Definition construction (seed device : pyval) (c : configuration)
  : Init object :=
  reset seed;;
  dataset_factory ←
    pure (match data c with
          | PStr key =>
              match dict_get key dataset_factory_methods with
              | Some factory => Ok factory
              | None => Raise (KeyError key)
              end
          | _ => Ok (call_data (data c))
          end);
  '(train, valid) ← dataset_factory (n_train c) (n_valid c) device
                      (default_kwargs (data_factory_kwargs c));
  m ← call_model_factory (model_factory c)
                         (default_kwargs (model_factory_kwargs c));
  o ← pure (new_SGD (model_to m device) (_learning_rate c));
  reset seed;;
  ex ← new_Executor
         {| attrs := inst_attrs (Simulation_new seed device c);
            train_dataset := Some train; valid_dataset := Some valid;
            model := Some (model_to m device); optimizer := Some o;
            trainer := Some _create_supervised_trainer;
            evaluator :=
              Some (create_supervised_evaluator (model_to m device)
                      (loss_function c) device);
            executor := None; initialized := false |};
  mret {| attrs := inst_attrs (Simulation_new seed device c);
          train_dataset := Some train; valid_dataset := Some valid;
          model := Some (model_to m device); optimizer := Some o;
          trainer := Some _create_supervised_trainer;
          evaluator :=
            Some (create_supervised_evaluator (model_to m device)
                    (loss_function c) device);
          executor := Some ex; initialized := true |}.

Lemma new_construction (seed device : pyval) (c : configuration) (rng : Rng) :
  new seed device c rng = construction seed device c rng.
Proof.
  destruct c as [mf d nt nv lf bs lr sn dk mk].
  destruct dk, mk; reflexivity.
Qed.


Lemma Simulation_declares_learning_rate :
  "_learning_rate" ∈ declared_fields Simulation_cls ∧
  "learning_rate" ∉ declared_fields Simulation_cls.
Proof.
  split; [apply (bool_decide_unpack _); by vm_compute|].
  intros Hin. apply (bool_decide_pack _) in Hin. by vm_compute in Hin.
Qed.

Lemma setter_attrs (val : pyval) (self : object) :
  attrs (learning_rate_setter val self).1 =
  <["_learning_rate" := val]> (attrs self).
Proof.
  unfold learning_rate_setter. simpl.
  destruct (initialized self); [|done].
  by destruct (fresh_optimizer _).
Qed.

(** X17: a [Simulation] whose [data] is a string that names none of the
    registered dataset factories cannot be constructed: the constructor
    raises [KeyError] for that string right after the first reset of the
    random state, before any dataset or model is built. *)
Theorem new_unknown_dataset (seed device : pyval) (c : configuration)
    (key : string) (rng : Rng) :
  data c = PStr key →
  key ∉ ["mnist"; "cifar10"; "gaussian"] →
  new seed device c rng = (reset_all_seeds seed rng, Raise (KeyError key)).
Proof.
  intros Hdata Hkey. rewrite new_construction. unfold construction.
  rewrite Hdata.
  assert (dict_get key dataset_factory_methods = None) as ->; [|done].
  apply dict_get_None. unfold dict_keys. simpl. exact Hkey.
Qed.

(** X18: when [reset_all_seeds] sets the random state to one that depends
    on the seed alone, constructing a [Simulation] is reproducible: the
    object, the exception if there is one, and the random state left
    behind are the same whatever the random state was before. *)
Theorem new_is_reproducible (seed device : pyval) (c : configuration)
    (rng rng' : Rng) :
  (∀ s r r', reset_all_seeds s r = reset_all_seeds s r') →
  new seed device c rng = new seed device c rng'.
Proof.
  intros Hreset. rewrite !new_construction. unfold construction, reset.
  unfold mbind at 1 3. unfold Init_bind.
  by rewrite (Hreset seed rng rng').
Qed.

(** X19: a [Simulation] that was constructed is marked as initialized, its
    declared fields are the arguments of the constructor with [None]
    keyword dictionaries replaced by [{}], so the identifier builder sees
    it as [Simulation_new], and its optimizer was built, and accepted, for
    the parameters of its model and its learning rate, with no momentum,
    dampening, weight decay or Nesterov step. *)
Theorem new_object (seed device : pyval) (c : configuration)
    (rng rng' : Rng) (self : object) :
  new seed device c rng = (rng', Ok self) →
  initialized self = true ∧
  as_instance self = Simulation_new seed device c ∧
  learning_rate self = Ok (_learning_rate c) ∧
  ∃ m,
    model self = Some m ∧
    sgd_refuses m (_learning_rate c) = None ∧
    optimizer self =
      Some {| sgd_params := m; sgd_lr := _learning_rate c;
              sgd_momentum := 0; sgd_dampening := 0; sgd_weight_decay := 0;
              sgd_nesterov := false |}.
Proof.
  rewrite new_construction. unfold construction, reset, pure, new_SGD.
  unfold mbind, Init_bind, mret, Init_ret.
  destruct (match data c with PStr _ => _ | _ => _ end)
    as [factory|]; [|done].
  destruct (factory _ _ _ _ _) as [rng1 [[train valid]|]]; [|done].
  destruct (call_model_factory _ _ _) as [rng2 [m|]]; [|done].
  destruct (sgd_refuses _ (_learning_rate c)) eqn:Hsgd; [done|].
  destruct (new_Executor _ _) as [rng3 [ex|]]; [|done].
  intros [= <- <-]. split_and!; [done|done| |by eexists].
  unfold learning_rate, getattr. cbn [attrs].
  by destruct c.
Qed.


(** X21: the identifier follows the learning rate: after the setter of
    [learning_rate] ran, whether it returned or raised, the identifier of
    the simulation is the one it had before with ['learning_rate'] bound
    to the new value, kept if it is a number and as a string if not. *)
Theorem identifier_follows_learning_rate (val : pyval) (self : object) :
  (∀ key, key ∈ declared_fields Simulation_cls →
          is_Some (attrs self !! key)) →
  ∃ identifier,
    construct_simulation_identifier (as_instance self) = Ok identifier ∧
    construct_simulation_identifier
      (as_instance (learning_rate_setter val self).1) =
    Ok (<["learning_rate" := if is_number val then val else PStr (str val)]>
          identifier).
Proof.
  intros Hfields.
  destruct Simulation_declares_learning_rate as [Hprivate Hpublic].
  destruct (construct_simulation_identifier_Ok (as_instance self) Hfields)
    as (identifier & Hrun & Hlookup).
  destruct (construct_simulation_identifier_Ok
              (as_instance (learning_rate_setter val self).1))
    as (identifier' & Hrun' & Hlookup').
  { intros key Hin. cbn [as_instance inst_attrs]. rewrite setter_attrs.
    destruct (decide (key = "_learning_rate")) as [->|Hne].
    - rewrite lookup_insert_eq. by eexists.
    - rewrite lookup_insert_ne by done. by apply Hfields. }
  exists identifier. split; [done|]. rewrite Hrun'. f_equal.
  apply map_eq. intros key. rewrite Hlookup'.
  cbn [as_instance inst_attrs inst_class] in *. rewrite setter_attrs.
  destruct (decide (key = "learning_rate")) as [->|Hne].
  - rewrite lookup_insert_eq, decide_False by done.
    rewrite decide_True by done. by rewrite lookup_insert_eq.
  - rewrite (lookup_insert_ne identifier) by done. rewrite Hlookup.
    destruct (decide (key = "_learning_rate")); [done|].
    rewrite !(decide_False (P := key = "learning_rate" ∧ _))
      by (by intros [? _]).
    by rewrite lookup_insert_ne.
Qed.

End simulation_object.

(** A stand-in for torch: the random state is a counter, datasets and
    models are numbers drawn from it. *)
Definition toy_reset (seed : pyval) (rng : Z) : Z :=
  match seed with
  | PNum x => Qnum (this x)
  | _ => 0
  end.

Definition toy_datasets : @dataset_factory Z Z :=
  λ n_train n_valid device kwargs rng, (rng + 2, Ok (rng, rng + 1)).

Definition toy_model (model_factory kwargs : pyval) : @Init Z Z :=
  λ rng, (rng + 1, Ok rng).

Definition toy_sgd_refuses (params : Z) (lr : pyval) : option exn :=
  match lr with
  | PNum x =>
      if bool_decide (Qnum (this x) < 0)
      then Some (ValueError "Invalid learning rate") else None
  | _ => Some (RuntimeError "not a number")
  end.

Definition toy_new (seed device : pyval) (c : configuration)
  : @Init Z (@object Z Z () ()) :=
  new toy_reset toy_datasets toy_datasets toy_datasets (λ _, toy_datasets)
      toy_model (λ m _, m) toy_sgd_refuses () (λ _ _ _, ())
      (λ _ rng, (rng, Ok ())) seed device c.

Definition made_up_configuration : configuration :=
  {| model_factory := PObj "<function make_model>";
     data := PStr "imagenet";
     n_train := PInt 10; n_valid := PInt 10;
     loss_function := PObj "MSELoss()";
     batch_size := PInt 2; _learning_rate := PInt 1;
     simulation_name := PStr "Simulation";
     data_factory_kwargs := PNone; model_factory_kwargs := PNone |}.

Lemma new_unknown_dataset_witness :
  toy_new (PInt 7) (PStr "cpu") made_up_configuration 0 =
  (7, Raise (KeyError "imagenet")).
Proof.
  apply (new_unknown_dataset toy_reset); [reflexivity|].
  rewrite !not_elem_of_cons. split_and!; [done..|]. apply not_elem_of_nil.
Defined.

Lemma new_is_reproducible_witness :
  toy_new (PInt 7) (PStr "cpu") example_configuration 0 =
  toy_new (PInt 7) (PStr "cpu") example_configuration 41.
Proof. by apply (new_is_reproducible toy_reset). Defined.

Lemma new_object_witness :
  match toy_new (PInt 7) (PStr "cpu") example_configuration 0 with
  | (_, Ok self) => initialized self = true
  | (_, Raise _) => False
  end.
Proof.
  destruct (toy_new (PInt 7) (PStr "cpu") example_configuration 0)
    as [rng' [self|e]] eqn:Hnew.
  - unfold toy_new in Hnew.
    by destruct (new_object _ _ _ _ _ _ _ _ _ _ _ _ _ _ _ _ _ Hnew).
  - assert (is_ok (toy_new (PInt 7) (PStr "cpu") example_configuration 0).2
            = true) as Hok by (vm_compute; reflexivity).
    rewrite Hnew in Hok. discriminate Hok.
Defined.

Definition toy_object : @object Z Z () () :=
  {| attrs := init_fields (PInt 7) (PStr "cpu") example_configuration;
     train_dataset := Some 7; valid_dataset := Some 8; model := Some 9;
     optimizer := None; trainer := None; evaluator := None;
     executor := None; initialized := true |}.


Lemma identifier_follows_learning_rate_witness :
  ∃ identifier,
    construct_simulation_identifier (as_instance toy_object) =
      Ok identifier ∧
    construct_simulation_identifier
      (as_instance (learning_rate_setter toy_sgd_refuses (PInt 3)
                      toy_object).1) =
    Ok (<["learning_rate" := PInt 3]> identifier).
Proof.
  apply (identifier_follows_learning_rate toy_sgd_refuses (PInt 3)
           toy_object).
  apply Forall_forall. apply (bool_decide_unpack _). by vm_compute.
Defined.
End Simulation.
